(** * Chat page of multi-agents-frontend: rendering pipeline and reveal controller

    A shallow embedding of [src/app/page.tsx]: the string primitives the page
    relies on, the three formatting functions ([formatMessage],
    [formatTextWithMarkdown], [formatInlineMarkdown]) and the session state with
    its handlers ([sendMessage], [simulateStreaming], [stopStreaming]).

    Strings are sequences of code units in the range 0..255 ([string]).
    React state is a record; every handler is a function on that record.  The
    interval timers created by [setInterval] are kept in a table of live
    timers, each with the variables its callback closes over. *)

From Stdlib Require Import String Ascii List Bool Arith ZArith Lia.
Import ListNotations.
Local Open Scope list_scope.
Local Open Scope string_scope.

(** ** String primitives of the host language *)

Module Str.

(** The line feed, written [\n] in the source. *)
Definition LF : ascii := ascii_of_nat 10.
Definition nl : string := String LF "".

(** White space as [String.prototype.trim] and the regexp class [\s] see it,
    restricted to code units below 256: TAB, LF, VT, FF, CR, SP and NBSP. *)
Definition is_space (a : ascii) : bool :=
  let n := nat_of_ascii a in
  (((9 <=? n) && (n <=? 13)) || (n =? 32) || (n =? 160))%nat.

(** The regexp class [\d]. *)
Definition is_digit (a : ascii) : bool :=
  let n := nat_of_ascii a in ((48 <=? n) && (n <=? 57))%nat.

Fixpoint trimStart (s : string) : string :=
  match s with
  | "" => ""
  | String a s' => if is_space a then trimStart s' else s
  end.

Fixpoint trimEnd (s : string) : string :=
  match s with
  | "" => ""
  | String a s' =>
      match trimEnd s' with
      | "" => if is_space a then "" else String a ""
      | t => String a t
      end
  end.

(** [s.trim()] *)
Definition trim (s : string) : string := trimEnd (trimStart s).

(** [s.startsWith(p)] *)
Definition startsWith (p s : string) : bool := String.prefix p s.

(** [s.endsWith(p)] *)
Definition endsWith (p s : string) : bool :=
  (String.length p <=? String.length s)%nat &&
  String.eqb (substring (String.length s - String.length p) (String.length p) s) p.

(** [s.slice(from, -back)]: the code units from index [from] up to, not
    including, index [length s - back]; empty when the two indices cross. *)
Definition slice (from back : nat) (s : string) : string :=
  substring from (String.length s - back - from) s.

(** [s.split(c)] for a separator of one code unit: the pieces between the
    occurrences of [c]; the empty string gives one empty piece. *)
Fixpoint split (c : ascii) (s : string) : list string :=
  match s with
  | "" => [""]
  | String a s' =>
      if Ascii.eqb a c then "" :: split c s'
      else match split c s' with
           | [] => [String a ""]
           | w :: ws => String a w :: ws
           end
  end.

(** [l.join(sep)] *)
Fixpoint join (sep : string) (l : list string) : string :=
  match l with
  | [] => ""
  | [w] => w
  | w :: ws => w ++ sep ++ join sep ws
  end.

(** [n] copies of the code unit [c]. *)
Fixpoint replicate (n : nat) (c : ascii) : string :=
  match n with
  | 0 => ""
  | S n' => String c (replicate n' c)
  end.

(** [drop n s] is [s] without its first [n] code units. *)
Fixpoint drop (n : nat) (s : string) : string :=
  match n, s with
  | 0, _ => s
  | S _, "" => ""
  | S n', String _ s' => drop n' s'
  end.

(** The longest prefix of code units satisfying [p], and the rest. *)
Fixpoint span (p : ascii -> bool) (s : string) : string * string :=
  match s with
  | "" => ("", "")
  | String a s' =>
      if p a then let (run, rest) := span p s' in (String a run, rest)
      else ("", s)
  end.

(** First occurrence of [pat] in [s]: the text before it and the text after. *)
Fixpoint find (pat s : string) : option (string * string) :=
  if String.prefix pat s then Some ("", drop (String.length pat) s)
  else match s with
       | "" => None
       | String a s' =>
           match find pat s' with
           | Some (before, after) => Some (String a before, after)
           | None => None
           end
       end.

(** Whether the code unit [c] occurs in [s]. *)
Fixpoint occurs (c : ascii) (s : string) : bool :=
  match s with
  | "" => false
  | String a s' => Ascii.eqb a c || occurs c s'
  end.

(** *** Splitting on a regular expression with one capturing group

    A matcher tries the regular expression at the start of a string and gives
    the matched text with what follows it.  [s.split(/(re)/g)] walks the
    string from the left: where the matcher succeeds, the text collected so
    far and the match are both output and the walk resumes after the match;
    elsewhere one code unit joins the collected text.  The matchers below
    never match the empty string, so [S (length s)] steps always suffice. *)
Definition matcher := string -> option (string * string).

Fixpoint splitWith (m : matcher) (steps : nat) (cur s : string) : list string :=
  match steps with
  | 0 => [cur ++ s]
  | S k =>
      match m s with
      | Some (matched, rest) => cur :: matched :: splitWith m k "" rest
      | None =>
          match s with
          | "" => [cur]
          | String a s' => splitWith m k (cur ++ String a "") s'
          end
      end
  end.

(** A matcher makes progress when what follows a match is shorter than the
    string the match was tried on. *)
Definition advances (m : matcher) : Prop :=
  forall s matched rest,
    m s = Some (matched, rest) -> String.length rest < String.length s.

Definition splitRe (m : matcher) (s : string) : list string :=
  splitWith m (S (String.length s)) "" s.

(** [/```[\s\S]*?```/]: a fence, then lazily any code units up to the next
    fence. *)
Definition fenceRe : matcher := fun s =>
  if String.prefix "```" s then
    match find "```" (drop 3 s) with
    | Some (body, rest) => Some ("```" ++ body ++ "```", rest)
    | None => None
    end
  else None.

(** [/d[^c]+d/] where the delimiter [d] is [n] copies of [c]: the run of
    code units other than [c] after the opening delimiter has to be non-empty
    and to be followed by the delimiter.  (A shorter run is followed by a
    code unit other than [c], so backtracking finds nothing more.) *)
Definition delimRe (c : ascii) (n : nat) : matcher := fun s =>
  let d := replicate n c in
  if String.prefix d s then
    let (run, rest) := span (fun a => negb (Ascii.eqb a c)) (drop n s) in
    match run with
    | "" => None
    | _ => if String.prefix d rest then Some (d ++ run ++ d, drop n rest)
           else None
    end
  else None.

(** Whether every code unit of [s] satisfies [p]. *)
Fixpoint all (p : ascii -> bool) (s : string) : bool :=
  match s with
  | "" => true
  | String a s' => p a && all p s'
  end.

(** A matcher loses nothing when the match and what follows it make up the
    string it was tried on. *)
Definition lossless (m : matcher) : Prop :=
  forall s matched rest, m s = Some (matched, rest) -> s = matched ++ rest.

(** The last code unit of a string. *)
Fixpoint last (s : string) : option ascii :=
  match s with
  | "" => None
  | String a "" => Some a
  | String _ s' => last s'
  end.

End Str.

(** ** The rendering pipeline

    The formatting functions return trees of React elements.  The embedding
    keeps the element kinds and their text and leaves out [key] and
    [className], which no property below depends on. *)

Module Render.
Import Str.

(** What [formatInlineMarkdown] builds, innermost first: the italic pass gives
    [<em>] elements and strings, the bold pass gives [<strong>] elements and
    the arrays of the italic pass, and every part of the line is a [<code>]
    element or a [<span>] around the array of the bold pass. *)
Inductive SubNode : Type :=
| Em (text : string)
| Text (text : string).

Inductive SegNode : Type :=
| Strong (text : string)
| Sub (children : list SubNode).

Inductive PartNode : Type :=
| CodeNode (text : string)
| SpanNode (children : list SegNode).

Definition italicPass (segment : string) : list SubNode :=
  map (fun subSegment =>
         if startsWith "*" subSegment && endsWith "*" subSegment
            && negb (startsWith "**" subSegment)
         then Em (slice 1 1 subSegment)
         else Text subSegment)
      (splitRe (delimRe "*" 1) segment).

Definition boldPass (part : string) : list SegNode :=
  map (fun segment =>
         if startsWith "**" segment && endsWith "**" segment
         then Strong (slice 2 2 segment)
         else Sub (italicPass segment))
      (splitRe (delimRe "*" 2) part).

Definition formatInlineMarkdown (text : string) : list PartNode :=
  map (fun part =>
         if startsWith "`" part && endsWith "`" part
         then CodeNode (slice 1 1 part)
         else SpanNode (boldPass part))
      (splitRe (delimRe "`" 1) text).

(** The spans of the specification, read off the element tree in document
    order: every string of the tree is a plain span, the empty ones too. *)
Inductive Span : Type :=
| PlainText (text : string)
| Bold (text : string)
| Italic (text : string)
| InlineCode (text : string).

Definition spanText (sp : Span) : string :=
  match sp with
  | PlainText t | Bold t | Italic t | InlineCode t => t
  end.

Definition subSpan (n : SubNode) : Span :=
  match n with
  | Em t => Italic t
  | Text t => PlainText t
  end.

Definition segSpans (n : SegNode) : list Span :=
  match n with
  | Strong t => [Bold t]
  | Sub l => map subSpan l
  end.

Definition partSpans (n : PartNode) : list Span :=
  match n with
  | CodeNode t => [InlineCode t]
  | SpanNode l => flat_map segSpans l
  end.

Definition spans (l : list PartNode) : list Span := flat_map partSpans l.

(** The text a reader sees: the span texts, one after the other. *)
Definition spansText (l : list Span) : string :=
  fold_right (fun sp acc => spanText sp ++ acc) "" l.

(** A plain span with no text renders nothing. *)
Definition visible (sp : Span) : bool :=
  match sp with
  | PlainText "" => false
  | _ => true
  end.

(** *** Blocks *)

Inductive Block : Type :=
| Heading (level : nat) (children : list PartNode)
| Paragraph (children : list PartNode)
| ListGroup (ordered : bool) (items : list (list PartNode))
| Blank.

Inductive ListType : Type := ul | ol.

Definition ListType_eqb (a b : ListType) : bool :=
  match a, b with
  | ul, ul | ol, ol => true
  | _, _ => false
  end.

(** The variables of [formatTextWithMarkdown] that the loop over the lines
    updates. *)
Record Acc : Type := mkAcc {
  elements : list Block;
  currentList : list (list PartNode);
  listType : option ListType
}.

Definition push (b : Block) (st : Acc) : Acc :=
  mkAcc (elements st ++ [b])%list (currentList st) (listType st).

Definition flushList (st : Acc) : Acc :=
  match currentList st with
  | [] => st
  | _ :: _ =>
      let els :=
        match listType st with
        | Some ul => (elements st ++ [ListGroup false (currentList st)])%list
        | Some ol => (elements st ++ [ListGroup true (currentList st)])%list
        | None => elements st
        end in
      mkAcc els [] None
  end.

Definition isHash (a : ascii) : bool := Ascii.eqb a "#".

(** [/^[-*+]\s/] *)
Definition matchUl (s : string) : bool :=
  match s with
  | String a (String b _) =>
      (Ascii.eqb a "-" || Ascii.eqb a "*" || Ascii.eqb a "+") && is_space b
  | _ => false
  end.

(** [/^\d+\.\s/]: what follows the match, when there is one. *)
Definition matchOl (s : string) : option string :=
  match span is_digit s with
  | ("", _) => None
  | (_, String dot (String b rest)) =>
      if Ascii.eqb dot "." && is_space b then Some rest else None
  | _ => None
  end.

(** [line.replace(/^#+\s*/, "")] *)
Definition stripHeading (s : string) : string :=
  match span isHash s with
  | ("", _) => s
  | (_, rest) => snd (span is_space rest)
  end.

(** The length of the match of [/^#+/], or 1 when there is none. *)
Definition headingLevel (s : string) : nat :=
  match String.length (fst (span isHash s)) with
  | 0 => 1
  | n => n
  end.

Definition setListType (t : ListType) (st : Acc) : Acc :=
  match listType st with
  | Some t' =>
      if ListType_eqb t' t then st
      else let st' := flushList st in
           mkAcc (elements st') (currentList st') (Some t)
  | None =>
      let st' := flushList st in
      mkAcc (elements st') (currentList st') (Some t)
  end.

Definition pushItem (item : list PartNode) (st : Acc) : Acc :=
  mkAcc (elements st) (currentList st ++ [item])%list (listType st).

(** The body of [lines.forEach]. *)
Definition lineStep (st : Acc) (line : string) : Acc :=
  let trimmedLine := trim line in
  match trimmedLine with
  | "" => push Blank (flushList st)
  | _ =>
      if startsWith "#" trimmedLine then
        let level := headingLevel trimmedLine in
        let headingText := stripHeading trimmedLine in
        push (Heading (Nat.min level 6) (formatInlineMarkdown headingText))
             (flushList st)
      else if matchUl trimmedLine then
        pushItem (formatInlineMarkdown (drop 2 trimmedLine))
                 (setListType ul st)
      else match matchOl trimmedLine with
           | Some listItemText =>
               pushItem (formatInlineMarkdown listItemText)
                        (setListType ol st)
           | None =>
               push (Paragraph (formatInlineMarkdown trimmedLine))
                    (flushList st)
           end
  end.

Definition formatTextWithMarkdown (text : string) : list Block :=
  let lines := split LF text in
  elements (flushList (fold_left lineStep lines (mkAcc [] [] None))).

(** List items as the loop finds them: a line whose trimmed text matches
    [/^[-*+]\s/] or [/^\d+\.\s/], and the text that the loop formats for
    it. *)
Definition isUlLine (line : string) : bool :=
  negb (occurs LF line) && matchUl (trim line).

Definition isOlLine (line : string) : bool :=
  negb (occurs LF line)
  && match matchOl (trim line) with Some _ => true | None => false end.

Definition ulText (line : string) : string := drop 2 (trim line).

Definition olText (line : string) : string :=
  match matchOl (trim line) with Some listItemText => listItemText | None => "" end.

(** A line is an item of a list of type [ty] with text [t] when the loop
    adds the formatted text to the list of that type. *)
Definition itemOf (ty : ListType) (line t : string) : Prop :=
  forall st, lineStep st line
             = pushItem (formatInlineMarkdown t) (setListType ty st).

(** The spans of a block and the text of a sequence of blocks. *)
Definition blockSpans (b : Block) : list Span :=
  match b with
  | Heading _ children | Paragraph children => spans children
  | ListGroup _ items => flat_map spans items
  | Blank => []
  end.

Definition renderedText (blocks : list Block) : string :=
  spansText (flat_map blockSpans blocks).

(** *** Segments *)

Inductive Segment : Type :=
| Code (language code : string)
| TextSeg (blocks : list Block).

(** The fenced message of a language line and a code body, as a reply may
    contain it. *)
Definition fenced (lang code : string) : string :=
  "```" ++ lang ++ nl ++ code ++ nl ++ "```".

Definition formatMessage (content : string) : list Segment :=
  let parts := splitRe fenceRe content in
  map (fun part =>
         if startsWith "```" part && endsWith "```" part then
           let codeContent := slice 3 3 part in
           let lines := split LF codeContent in
           let language :=
             match trim (hd "" lines) with
             | "" => "text"
             | l => l
             end in
           let code := join nl (tl lines) in
           Code language code
         else TextSeg (formatTextWithMarkdown part))
      parts.

(** *** Lines of the kinds the loop tells apart

    The block that a line gives when it is not a list item, the test for
    list items as the loop makes it, and lines built from a marker and a
    text. *)
Definition blockOf (line : string) : Block :=
  let trimmedLine := trim line in
  match trimmedLine with
  | "" => Blank
  | _ =>
      if startsWith "#" trimmedLine then
        Heading (Nat.min (headingLevel trimmedLine) 6)
                (formatInlineMarkdown (stripHeading trimmedLine))
      else Paragraph (formatInlineMarkdown trimmedLine)
  end.

Definition isListItem (line : string) : bool :=
  let trimmedLine := trim line in
  match trimmedLine with
  | "" => false
  | _ =>
      negb (startsWith "#" trimmedLine)
      && (matchUl trimmedLine
          || match matchOl trimmedLine with Some _ => true | None => false end)
  end.

(** The markers of [/^[-*+]\s/]. *)
Definition isBullet (a : ascii) : bool :=
  Ascii.eqb a "-" || Ascii.eqb a "*" || Ascii.eqb a "+".

(** A text of one line that [trim] leaves alone and that is not empty. *)
Definition isText (t : string) : bool :=
  negb (occurs LF t) && String.eqb (trim t) t
  && negb (String.eqb t "").

(** A non-empty string of digits. *)
Fixpoint allDigits (s : string) : bool :=
  match s with
  | "" => false
  | String a "" => is_digit a
  | String a s' => is_digit a && allDigits s'
  end.

Definition bulletLine (p : ascii * string) : string :=
  String (fst p) (" " ++ snd p).

Definition numberedLine (p : string * string) : string :=
  fst p ++ ". " ++ snd p.

Definition headingLine (n : nat) (title : string) : string :=
  replicate n "#" ++ " " ++ title.

End Render.

(** ** The conversation session

    The state of [ChatPage] that the handlers read and write, together with
    the two resources of the host they use: the table of live interval
    timers and the calls of [fetch].  [Date.now()] is an argument of every
    handler that reads the clock. *)

Module Session.
Import Str.
Local Open Scope Z_scope.

Inductive Role : Type := user | assistant.

(** [id] is the number whose decimal notation the source stores. *)
Record Message : Type := mkMessage {
  id : Z;
  content : string;
  role : Role;
  timestamp : Z
}.

(** A live interval timer: its handle and the variables of
    [simulateStreaming] that its callback closes over. *)
Record Interval : Type := mkInterval {
  handle : nat;
  text : string;
  words : list string;
  currentIndex : nat;
  callback : string -> Z -> list Message -> list Message
}.

Record State : Type := mkState {
  messages : list Message;
  input : string;
  isLoading : bool;
  streamingMessage : string;
  isStreaming : bool;
  streamIntervalRef : option nat;
  (* the host *)
  timers : list Interval;     (* intervals set and not cleared *)
  nextHandle : nat;           (* the handle the next [setInterval] returns *)
  fetched : list string;      (* the [message] of every request sent *)
  awaiting : nat              (* calls of [sendMessage] suspended at [await] *)
}.

Definition initial : State :=
  mkState [] "" false "" false None [] 1%nat [] 0%nat.

(** State setters. *)
Definition setMessages (f : list Message -> list Message) (s : State) : State :=
  mkState (f (messages s)) (input s) (isLoading s) (streamingMessage s)
          (isStreaming s) (streamIntervalRef s) (timers s) (nextHandle s)
          (fetched s) (awaiting s).

Definition setInput (v : string) (s : State) : State :=
  mkState (messages s) v (isLoading s) (streamingMessage s)
          (isStreaming s) (streamIntervalRef s) (timers s) (nextHandle s)
          (fetched s) (awaiting s).

Definition setIsLoading (v : bool) (s : State) : State :=
  mkState (messages s) (input s) v (streamingMessage s)
          (isStreaming s) (streamIntervalRef s) (timers s) (nextHandle s)
          (fetched s) (awaiting s).

Definition setStreamingMessage (v : string) (s : State) : State :=
  mkState (messages s) (input s) (isLoading s) v
          (isStreaming s) (streamIntervalRef s) (timers s) (nextHandle s)
          (fetched s) (awaiting s).

Definition setIsStreaming (v : bool) (s : State) : State :=
  mkState (messages s) (input s) (isLoading s) (streamingMessage s)
          v (streamIntervalRef s) (timers s) (nextHandle s)
          (fetched s) (awaiting s).

Definition setRef (v : option nat) (s : State) : State :=
  mkState (messages s) (input s) (isLoading s) (streamingMessage s)
          (isStreaming s) v (timers s) (nextHandle s)
          (fetched s) (awaiting s).

Definition setTimers (v : list Interval) (s : State) : State :=
  mkState (messages s) (input s) (isLoading s) (streamingMessage s)
          (isStreaming s) (streamIntervalRef s) v (nextHandle s)
          (fetched s) (awaiting s).

(** [clearInterval(h)]: a handle that is [null] or not live clears nothing. *)
Definition clearInterval (h : option nat) (s : State) : State :=
  match h with
  | Some n => setTimers (filter (fun t => negb (Nat.eqb (handle t) n)) (timers s)) s
  | None => s
  end.

(** [setInterval(cb, 30)]: a fresh handle; the timer joins the live ones. *)
Definition setInterval (t : nat -> Interval) (s : State) : State * nat :=
  let h := nextHandle s in
  (mkState (messages s) (input s) (isLoading s) (streamingMessage s)
           (isStreaming s) (streamIntervalRef s) (timers s ++ [t h])%list
           (S h) (fetched s) (awaiting s), h).

(** [fetch(url, {body: {message}})] up to the [await]. *)
Definition fetch (message : string) (s : State) : State :=
  mkState (messages s) (input s) (isLoading s) (streamingMessage s)
          (isStreaming s) (streamIntervalRef s) (timers s) (nextHandle s)
          (fetched s ++ [message])%list (S (awaiting s)).

Definition isEmpty (s : string) : bool :=
  match s with "" => true | _ => false end.

(** *** stopStreaming *)
Definition stopStreaming (now : Z) (s : State) : State :=
  match streamIntervalRef s with
  | Some h =>
      let s := clearInterval (Some h) s in
      let s := setRef None s in
      let s := setIsStreaming false s in
      if isEmpty (streamingMessage s) then s
      else
        let assistantMessage :=
          mkMessage (now + 1) (streamingMessage s) assistant now in
        let s := setMessages (fun prev => prev ++ [assistantMessage])%list s in
        setStreamingMessage "" s
  | None => s
  end.

(** *** simulateStreaming

    A call either returns or throws; the state changes made before a throw
    stay.  The reply comes from an unchecked response body: [None] stands for
    a [text] that is not a string, on which [text.split] throws. *)
Inductive Completion : Type :=
| Returned (s : State)
| Threw (s : State).

Definition simulateStreaming (text : option string)
    (callback : string -> Z -> list Message -> list Message)
    (s : State) : Completion :=
  let s := setIsStreaming true s in
  let s := setStreamingMessage "" s in
  match text with
  | None => Threw s
  | Some text =>
      let words := split " " text in
      let (s, h) := setInterval (fun h => mkInterval h text words 0%nat callback) s in
      Returned (setRef (Some h) s)
  end.

(** One firing of the interval with handle [h]; a timer that is not live does
    not fire. *)
Definition lookupTimer (h : nat) (s : State) : option Interval :=
  List.find (fun t => Nat.eqb (handle t) h) (timers s).

Definition storeTimer (t : Interval) (s : State) : State :=
  setTimers (map (fun t' => if Nat.eqb (handle t') (handle t) then t else t')
                 (timers s)) s.

Definition tick (h : nat) (now : Z) (s : State) : State :=
  match lookupTimer h s with
  | None => s
  | Some t =>
      if (currentIndex t <? List.length (words t))%nat then
        let currentText := join " " (firstn (currentIndex t + 1) (words t)) in
        let s := setStreamingMessage currentText s in
        storeTimer (mkInterval (handle t) (text t) (words t)
                               (currentIndex t + 1) (callback t)) s
      else
        let s := clearInterval (streamIntervalRef s) s in
        let s := setRef None s in
        let s := setIsStreaming false s in
        let s := setStreamingMessage "" s in
        setMessages (callback t (text t) now) s
  end.

(** *** sendMessage

    The function is split where it suspends: [sendMessage] runs to the
    [await] of [fetch], [sendMessageResume] runs from there to the end once
    the request has settled. *)
Inductive Body : Type :=
| Unparsable                      (* [response.json()] rejects *)
| JsonNull                        (* the body is [null] *)
| Json (reply : option string).   (* any other value; [reply] when a string *)

Inductive Settled : Type :=
| NetworkError
| Response (ok : bool) (body : Body).

Definition errorText : string :=
  "Sorry, I encountered an error. Please make sure the backend server is running on https://multi-agents-backend.vercel.app/api/chat".

Definition sendMessage (now : Z) (s : State) : State :=
  if isEmpty (trim (input s)) || isLoading s then s
  else
    let userMessage := mkMessage now (trim (input s)) user now in
    let s := setMessages (fun prev => prev ++ [userMessage])%list s in
    let s := setInput "" s in
    let s := setIsLoading true s in
    fetch (content userMessage) s.

(** The callback [sendMessage] hands to [simulateStreaming]. *)
Definition appendReply (fullText : string) (now : Z) (prev : list Message)
  : list Message :=
  (prev ++ [mkMessage (now + 1) fullText assistant now])%list.

Definition tryBlock (r : Settled) (s : State) : Completion :=
  match r with
  | NetworkError => Threw s
  | Response false _ => Threw s
  | Response true Unparsable => Threw s
  | Response true JsonNull => Threw s
  | Response true (Json reply) => simulateStreaming reply appendReply s
  end.

Definition catchBlock (now : Z) (s : State) : State :=
  let errorMessage := mkMessage (now + 1) errorText assistant now in
  setMessages (fun prev => prev ++ [errorMessage])%list s.

Definition sendMessageResume (r : Settled) (now : Z) (s : State) : State :=
  match awaiting s with
  | O => s
  | S n =>
      let s := mkState (messages s) (input s) (isLoading s)
                       (streamingMessage s) (isStreaming s)
                       (streamIntervalRef s) (timers s) (nextHandle s)
                       (fetched s) n in
      let s := match tryBlock r s with
               | Returned s => s
               | Threw s => catchBlock now s
               end in
      setIsLoading false s
  end.

(** *** What the page lets happen

    The text field is disabled while [isLoading]; Enter in it calls
    [sendMessage].  The button is Stop while [isStreaming] and Send
    otherwise. *)
Inductive Event : Type :=
| Typed (v : string)
| PressEnter (now : Z)
| ClickSend (now : Z)
| ClickStop (now : Z)
| Settle (r : Settled) (now : Z)
| Tick (h : nat) (now : Z).

Definition step (s : State) (e : Event) : State :=
  match e with
  | Typed v => if isLoading s then s else setInput v s
  | PressEnter now => if isLoading s then s else sendMessage now s
  | ClickSend now => if isStreaming s then s else sendMessage now s
  | ClickStop now => if isStreaming s then stopStreaming now s else s
  | Settle r now => sendMessageResume r now s
  | Tick h now => tick h now s
  end.

Definition run (s : State) (es : list Event) : State := fold_left step es s.

(** At most one call of [sendMessage] is suspended, and exactly when
    [isLoading] is set. *)
Definition oneRequest (s : State) : Prop :=
  awaiting s = if isLoading s then 1%nat else 0%nat.

(** The contents of the assistant messages, in order. *)
Definition replies (s : State) : list string :=
  map content (filter (fun m => match role m with assistant => true | user => false end)
                      (messages s)).

(** The settlements on which the [try] block throws before it calls
    [simulateStreaming]. *)
Definition throwsEarly (r : Settled) : bool :=
  match r with
  | NetworkError | Response false _ | Response true Unparsable
  | Response true JsonNull => true
  | Response true (Json _) => false
  end.

(** A response with a success status whose body holds the reply [text]. *)
Definition ok (text : string) : Settled := Response true (Json (Some text)).

(** Two sessions used below.  In [oneReveal] a message is sent and answered,
    so that a reveal of the answer is running.  In [twoReveals] a second
    message is then typed and sent with Enter, and answered, before the first
    reveal has ended. *)
Definition oneReveal (reply : string) : list Event :=
  [Typed "hi"; PressEnter 1; Settle (ok reply) 2].

Definition twoReveals : list Event :=
  (oneReveal "a b c" ++ [Typed "yo"; PressEnter 3; Settle (ok "d e") 4])%list.

(** The state after a message has been sent and before its request has
    settled, and the state after two firings of the reveal of [a b c d]. *)
Definition asked : State := run initial [Typed "hi"; PressEnter 1].

Definition halfway : State :=
  run initial (oneReveal "a b c d" ++ [Tick 1 3; Tick 1 4]).

(** A response with a success status whose body is JSON without a [reply]
    string, such as an empty object. *)
Definition replyMissing : list Event :=
  [Typed "hi"; PressEnter 1; Settle (Response true (Json None)) 2].

(** *** handleKeyPress

    The key handler of the text field: Enter without Shift sends. *)
Definition handleKeyPress (key : string) (shiftKey : bool) (now : Z)
    (s : State) : State :=
  if String.eqb key "Enter" && negb shiftKey then sendMessage now s else s.

(** *** What every state of a session satisfies *)

Definition isUser (m : Message) : bool :=
  match role m with user => true | assistant => false end.

(** The intervals all carry the callback of [sendMessage]. *)
Definition ownCallbacks (s : State) : Prop :=
  Forall (fun t => callback t = appendReply) (timers s).

(** A handle kept in the reference is the handle of a live interval, and the
    streaming flag is set. *)
Definition heldIsLive (s : State) : Prop :=
  forall h, streamIntervalRef s = Some h ->
            isStreaming s = true /\ In h (map handle (timers s)).

(** The requests sent are the user messages, in order. *)
Definition sentIsShown (s : State) : Prop :=
  fetched s = map content (filter isUser (messages s)).

Definition sound (s : State) : Prop :=
  oneRequest s /\ ownCallbacks s /\ heldIsLive s /\ sentIsShown s.

(** The state in which the reveal of a reply starts, for a session with no
    live interval that waits for its answer. *)
Definition started (text : string) (now : Z) (s : State) : State :=
  sendMessageResume (ok text) now s.

End Session.

(** ** The model on small inputs *)

Example split_words : Str.split " " "a  b" = ["a"; ""; "b"].
Proof. reflexivity. Qed.

Example split_empty : Str.split " " "" = [""].
Proof. reflexivity. Qed.

Example trim_both : Str.trim "  a b  " = "a b".
Proof. reflexivity. Qed.

Example slice_crossed : Str.slice 2 2 "**" = "" /\ Str.slice 1 1 "`x`" = "x".
Proof. split; reflexivity. Qed.

Example split_bold : Str.splitRe (Str.delimRe "*" 2) "***a** b" = ["*"; "**a**"; " b"].
Proof. reflexivity. Qed.

Example split_fences :
  Str.splitRe Str.fenceRe "x```a```y`````" = ["x"; "```a```"; "y`````"].
Proof. reflexivity. Qed.

Example inline_mixed :
  Render.spans (Render.formatInlineMarkdown "a `b*c*` **d** *e* f")
  = [Render.PlainText "a "; Render.InlineCode "b*c*"; Render.PlainText " ";
     Render.Bold "d"; Render.PlainText " "; Render.Italic "e";
     Render.PlainText " f"].
Proof. reflexivity. Qed.

Example blocks_list_switch :
  Render.formatTextWithMarkdown ("- a" ++ Str.nl ++ "1. b")
  = [Render.ListGroup false [[Render.SpanNode [Render.Sub [Render.Text "a"]]]];
     Render.ListGroup true [[Render.SpanNode [Render.Sub [Render.Text "b"]]]]].
Proof. reflexivity. Qed.

Example blocks_heading_clamp :
  Render.formatTextWithMarkdown "####### h"
  = [Render.Heading 6 [Render.SpanNode [Render.Sub [Render.Text "h"]]]].
Proof. reflexivity. Qed.

(** ** Facts about the string primitives *)

Module StrFacts.
Import Str.

Lemma append_nil_r (s : string) : s ++ "" = s.
Proof. induction s as [|a s IH]; simpl; [reflexivity | now rewrite IH]. Qed.

Lemma append_assoc (a b c : string) : (a ++ b) ++ c = a ++ (b ++ c).
Proof. induction a as [|x a IH]; simpl; [reflexivity | now rewrite IH]. Qed.

Lemma length_append (a b : string) :
  String.length (a ++ b) = String.length a + String.length b.
Proof. induction a as [|x a IH]; simpl; [reflexivity | now rewrite IH]. Qed.

Lemma substring_all (s : string) : substring 0 (String.length s) s = s.
Proof. induction s as [|a s IH]; simpl; [reflexivity | now rewrite IH]. Qed.

Lemma substring_head (x rest : string) :
  substring 0 (String.length x) (x ++ rest) = x.
Proof.
  induction x as [|a x IH]; simpl.
  - destruct rest; reflexivity.
  - now rewrite IH.
Qed.

(** The middle of three pieces, cut out by position. *)
Lemma substring_middle (a x b : string) :
  substring (String.length a) (String.length x) (a ++ x ++ b) = x.
Proof.
  induction a as [|c a IH]; simpl.
  - apply substring_head.
  - exact IH.
Qed.

Lemma slice_middle (a x b : string) :
  slice (String.length a) (String.length b) (a ++ x ++ b) = x.
Proof.
  unfold slice. rewrite !length_append.
  replace (String.length a + (String.length x + String.length b)
           - String.length b - String.length a) with (String.length x) by lia.
  apply substring_middle.
Qed.

Lemma endsWith_append (x p : string) : endsWith p (x ++ p) = true.
Proof.
  unfold endsWith. rewrite length_append.
  replace (String.length x + String.length p - String.length p)
    with (String.length x) by lia.
  rewrite andb_true_iff; split.
  - apply Nat.leb_le; lia.
  - pose proof (substring_middle x p "") as H.
    rewrite append_nil_r in H. rewrite H. apply String.eqb_refl.
Qed.

Lemma prefix_append (p s : string) : String.prefix p (p ++ s) = true.
Proof.
  induction p as [|a p IH]; simpl.
  - destruct s; reflexivity.
  - destruct (ascii_dec a a); [exact IH | contradiction].
Qed.

Lemma prefix_head (c a : ascii) (p s : string) :
  a <> c -> String.prefix (String c p) (String a s) = false.
Proof.
  intros H. simpl.
  destruct (ascii_dec c a) as [->|]; [contradiction | reflexivity].
Qed.

Lemma drop_append (p s : string) : drop (String.length p) (p ++ s) = s.
Proof. induction p as [|a p IH]; simpl; [reflexivity | exact IH]. Qed.

(** A string in which [c] does not occur does not start with a delimiter
    made of [c]. *)
Lemma prefix_occurs (c : ascii) (n : nat) (s : string) :
  occurs c s = false -> String.prefix (replicate (S n) c) s = false.
Proof.
  destruct s as [|a s]; simpl; [reflexivity|].
  intros H. apply orb_false_iff in H as [H _].
  apply Ascii.eqb_neq in H.
  destruct (ascii_dec c a) as [->|]; [contradiction | reflexivity].
Qed.

Lemma occurs_append (c : ascii) (a b : string) :
  occurs c (a ++ b) = occurs c a || occurs c b.
Proof.
  induction a as [|x a IH]; simpl; [reflexivity|].
  now rewrite IH, orb_assoc.
Qed.

Lemma occurs_trimStart (c : ascii) (s : string) :
  occurs c s = false -> occurs c (trimStart s) = false.
Proof.
  induction s as [|a s IH]; simpl; [reflexivity|].
  intros H. destruct (is_space a); [|exact H].
  apply orb_false_iff in H as [_ H]. now apply IH.
Qed.

Lemma occurs_trimEnd (c : ascii) (s : string) :
  occurs c s = false -> occurs c (trimEnd s) = false.
Proof.
  induction s as [|a s IH]; simpl; [reflexivity|].
  intros H. apply orb_false_iff in H as [Ha Hs].
  specialize (IH Hs).
  destruct (trimEnd s) as [|b t].
  - destruct (is_space a); simpl; [reflexivity | now rewrite Ha].
  - change (occurs c (String a (String b t)) = false).
    simpl. simpl in IH. now rewrite Ha, IH.
Qed.

Lemma occurs_trim (c : ascii) (s : string) :
  occurs c s = false -> occurs c (trim s) = false.
Proof. intros H. apply occurs_trimEnd, occurs_trimStart, H. Qed.

(** *** [split] and [join] *)

Lemma split_not_nil (c : ascii) (s : string) : split c s <> [].
Proof.
  destruct s as [|a s]; simpl; [discriminate|].
  destruct (Ascii.eqb a c); [discriminate|].
  destruct (split c s); discriminate.
Qed.

Lemma split_absent (c : ascii) (s : string) :
  occurs c s = false -> split c s = [s].
Proof.
  induction s as [|a s IH]; simpl; [reflexivity|].
  intros H. apply orb_false_iff in H as [Ha Hs].
  rewrite Ha, (IH Hs). reflexivity.
Qed.

(** The first piece ends at the first separator. *)
Lemma split_first (c : ascii) (x rest : string) :
  occurs c x = false -> split c (x ++ String c rest) = x :: split c rest.
Proof.
  induction x as [|a x IH]; simpl.
  - intros _. now rewrite Ascii.eqb_refl.
  - intros H. apply orb_false_iff in H as [Ha Hx].
    rewrite Ha, (IH Hx). reflexivity.
Qed.

(** Joining the pieces with the separator gives the string back. *)
Lemma join_split (c : ascii) (s : string) :
  join (String c "") (split c s) = s.
Proof.
  induction s as [|a s IH]; simpl; [reflexivity|].
  destruct (Ascii.eqb_spec a c) as [->|Hne].
  - pose proof (split_not_nil c s) as Hn.
    destruct (split c s) as [|w ws]; [contradiction|].
    simpl in *. now rewrite IH.
  - pose proof (split_not_nil c s) as Hn.
    destruct (split c s) as [|w ws]; [contradiction|].
    destruct ws as [|w' ws]; simpl in *; now rewrite <- IH.
Qed.

(** *** Splitting on a regular expression *)

(** Where the delimiter's code unit is absent nothing matches and the
    string stays in one piece, whatever the number of steps. *)
Lemma splitWith_absent (c : ascii) (n k : nat) (cur s : string) :
  occurs c s = false ->
  splitWith (delimRe c (S n)) k cur s = [cur ++ s].
Proof.
  revert cur s. induction k as [|k IH]; intros cur s H; simpl; [reflexivity|].
  unfold delimRe at 1.
  rewrite (prefix_occurs c n s H).
  destruct s as [|a s].
  - now rewrite append_nil_r.
  - simpl in H. apply orb_false_iff in H as [_ H].
    rewrite (IH _ _ H), append_assoc. reflexivity.
Qed.

Lemma splitRe_absent (c : ascii) (n : nat) (s : string) :
  occurs c s = false -> splitRe (delimRe c (S n)) s = [s].
Proof. intros H. unfold splitRe. now rewrite splitWith_absent. Qed.

Lemma find_eq (pat s : string) :
  find pat s =
  if String.prefix pat s then Some ("", drop (String.length pat) s)
  else match s with
       | "" => None
       | String a s' =>
           match find pat s' with
           | Some (before, after) => Some (String a before, after)
           | None => None
           end
       end.
Proof. destruct s; reflexivity. Qed.

(** The closing fence is the first one after a body free of backticks. *)
Lemma find_fence (body rest : string) :
  occurs "`" body = false ->
  find "```" (body ++ "```" ++ rest) = Some (body, rest).
Proof.
  induction body as [|a body IH]; intros H.
  - change ("" ++ "```" ++ rest) with ("```" ++ rest).
    rewrite find_eq, prefix_append.
    now rewrite (drop_append "```" rest).
  - simpl in H. apply orb_false_iff in H as [Ha Hb].
    change (String a body ++ "```" ++ rest)
      with (String a (body ++ "```" ++ rest)).
    rewrite find_eq.
    replace (String.prefix "```" (String a (body ++ "```" ++ rest)))
      with false.
    + now rewrite (IH Hb).
    + symmetry. apply prefix_head. now apply Ascii.eqb_neq.
Qed.

(** *** The number of steps of [splitRe] is enough *)

Lemma length_drop (n : nat) (s : string) :
  String.length (drop n s) <= String.length s.
Proof.
  revert s. induction n as [|n IH]; intros [|a s]; simpl; try lia.
  specialize (IH s). lia.
Qed.

Lemma length_span (p : ascii -> bool) (s : string) :
  String.length (snd (span p s)) <= String.length s.
Proof.
  induction s as [|a s IH]; simpl; [lia|].
  destruct (p a); simpl; [|lia].
  destruct (span p s); simpl in *. lia.
Qed.

Lemma length_find (pat s before after : string) :
  find pat s = Some (before, after) -> String.length after <= String.length s.
Proof.
  revert before. induction s as [|a s IH]; intros before; rewrite find_eq.
  - destruct (String.prefix pat ""); [|discriminate].
    intros [= _ <-]. apply length_drop.
  - destruct (String.prefix pat (String a s)).
    + intros [= _ <-]. apply length_drop.
    + destruct (find pat s) as [[b r]|]; [|discriminate].
      intros [= _ <-]. specialize (IH b eq_refl). simpl. lia.
Qed.

Lemma fenceRe_progress : advances fenceRe.
Proof.
  intros s matched rest. unfold fenceRe.
  destruct (String.prefix "```" s) eqn:P; [|discriminate].
  destruct (find "```" (drop 3 s)) as [[b r]|] eqn:F; [|discriminate].
  intros [= _ <-]. apply length_find in F.
  destruct s as [|a s]; [discriminate P|].
  pose proof (length_drop 2 s). simpl in *. lia.
Qed.

Lemma delimRe_progress (c : ascii) (n : nat) : advances (delimRe c (S n)).
Proof.
  intros s matched rest. unfold delimRe.
  destruct (String.prefix (replicate (S n) c) s) eqn:P; [|discriminate].
  destruct s as [|a s]; [discriminate P|].
  pose proof (length_span (fun a => negb (Ascii.eqb a c)) (drop (S n) (String a s))) as L.
  destruct (span (fun a => negb (Ascii.eqb a c)) (drop (S n) (String a s)))
    as [run rest1].
  destruct run; [discriminate|].
  destruct (String.prefix (replicate (S n) c) rest1); [|discriminate].
  intros [= _ <-].
  pose proof (length_drop (S n) rest1).
  pose proof (length_drop n s).
  destruct rest1 as [|b rest1].
  - simpl. lia.
  - pose proof (length_drop n rest1). simpl in *. lia.
Qed.

(** With a matcher that makes progress, any number of steps above the
    length of the string gives the same pieces: the walk reaches the end of
    the string before the steps run out. *)
Lemma splitWith_enough (m : matcher) :
  advances m ->
  forall k1 k2 cur s,
    String.length s < k1 -> String.length s < k2 ->
    splitWith m k1 cur s = splitWith m k2 cur s.
Proof.
  intros Hm. induction k1 as [|k1 IH]; intros k2 cur s H1 H2; [lia|].
  destruct k2 as [|k2]; [lia|]. simpl.
  destruct (m s) as [[matched rest]|] eqn:E.
  - apply Hm in E. do 2 f_equal. apply IH; lia.
  - destruct s as [|a s]; [reflexivity|]. simpl in *. apply IH; lia.
Qed.

(** Enough steps: an unused step changes nothing once the input is used up. *)
Lemma splitWith_done (m : matcher) (k : nat) (cur : string) :
  m "" = None -> splitWith m k cur "" = [cur].
Proof.
  intros H. destruct k; simpl.
  - now rewrite append_nil_r.
  - now rewrite H.
Qed.

End StrFacts.

(** ** The rendering pipeline: properties *)

Module RenderFacts.
Import Str StrFacts Render.

Lemma startsWith_absent (c : ascii) (n : nat) (s : string) :
  occurs c s = false -> startsWith (replicate (S n) c) s = false.
Proof. apply prefix_occurs. Qed.

(** A line without backticks and asterisks is one plain string. *)
Lemma formatInlineMarkdown_plain (t : string) :
  occurs "`" t = false -> occurs "*" t = false ->
  formatInlineMarkdown t = [SpanNode [Sub [Text t]]].
Proof.
  intros Hb Ha.
  pose proof (startsWith_absent "`" 0 t Hb) as P1.
  pose proof (startsWith_absent "*" 1 t Ha) as P2.
  pose proof (startsWith_absent "*" 0 t Ha) as P3.
  cbn [replicate] in P1, P2, P3.
  unfold formatInlineMarkdown.
  rewrite (splitRe_absent "`" 0 t Hb). cbn [map]. rewrite P1. cbn [andb].
  unfold boldPass.
  rewrite (splitRe_absent "*" 1 t Ha). cbn [map]. rewrite P2. cbn [andb].
  unfold italicPass.
  rewrite (splitRe_absent "*" 0 t Ha). cbn [map]. rewrite P3. cbn [andb].
  reflexivity.
Qed.

Lemma splitRe_fenced (body : string) :
  occurs "`" body = false ->
  splitRe fenceRe ("```" ++ body ++ "```") = [""; "```" ++ body ++ "```"; ""].
Proof.
  intros H. unfold splitRe.
  cbn [splitWith]. unfold fenceRe at 1.
  rewrite (prefix_append "```"), (drop_append "```").
  pose proof (find_fence body "" H) as F. rewrite !append_nil_r in F.
  change (body ++ "```" ++ "") with (body ++ "```") in F.
  rewrite F.
  now rewrite splitWith_done.
Qed.

Lemma formatMessage_fenced (lang code : string) :
  occurs LF lang = false ->
  occurs "`" lang = false ->
  occurs "`" code = false ->
  formatMessage (fenced lang code)
  = [TextSeg [Blank];
     Code (match trim lang with "" => "text" | l => l end) (code ++ nl);
     TextSeg [Blank]].
Proof.
  intros Hl Hb Hc.
  assert (Hbody : occurs "`" (lang ++ nl ++ code ++ nl) = false).
  { rewrite !occurs_append, Hb, Hc. reflexivity. }
  unfold formatMessage, fenced.
  replace ("```" ++ lang ++ nl ++ code ++ nl ++ "```")
    with ("```" ++ (lang ++ nl ++ code ++ nl) ++ "```")
    by (now rewrite !append_assoc).
  rewrite (splitRe_fenced _ Hbody). cbn [map].
  replace (startsWith "```" "" && endsWith "```" "") with false by reflexivity.
  replace (formatTextWithMarkdown "") with [Blank] by reflexivity.
  unfold startsWith. rewrite (prefix_append "```").
  replace (endsWith "```" ("```" ++ (lang ++ nl ++ code ++ nl) ++ "```")) with true.
  2:{ rewrite <- append_assoc. symmetry. apply endsWith_append. }
  cbn [andb].
  pose proof (slice_middle "```" (lang ++ nl ++ code ++ nl) "```") as Sl.
  change (String.length "```") with 3 in Sl. rewrite Sl.
  change (lang ++ nl ++ code ++ nl) with (lang ++ String LF (code ++ nl)).
  rewrite (split_first LF lang (code ++ nl) Hl).
  cbn [hd tl].
  change (join nl (split LF (code ++ nl)))
    with (join (String LF "") (split LF (code ++ nl))).
  rewrite join_split.
  reflexivity.
Qed.

(** A line that is neither blank, nor a heading, nor a list item becomes
    one paragraph holding its trimmed text. *)
Lemma formatTextWithMarkdown_paragraph (line : string) :
  occurs LF line = false ->
  trim line <> "" ->
  startsWith "#" (trim line) = false ->
  matchUl (trim line) = false ->
  matchOl (trim line) = None ->
  formatTextWithMarkdown line = [Paragraph (formatInlineMarkdown (trim line))].
Proof.
  intros Hl Hne Hh Hu Ho. unfold formatTextWithMarkdown.
  rewrite (split_absent LF line Hl). cbn [fold_left].
  unfold lineStep. rewrite Hh, Hu, Ho.
  destruct (trim line) as [|a t]; [contradiction|].
  reflexivity.
Qed.

End RenderFacts.

(** ** Fences around text with single and double backticks *)

Module FenceFacts.
Import Str StrFacts Render RenderFacts.

(** Whether a string of three code units or more starts with a pattern of
    three depends on its first three code units only. *)
Lemma prefix3 (c1 c2 c3 a b c : ascii) (t : string) :
  String.prefix (String c1 (String c2 (String c3 "")))
                (String a (String b (String c t)))
  = Ascii.eqb c1 a && Ascii.eqb c2 b && Ascii.eqb c3 c.
Proof.
  simpl.
  destruct (ascii_dec c1 a) as [->|N1];
    [rewrite Ascii.eqb_refl | apply Ascii.eqb_neq in N1; now rewrite N1].
  destruct (ascii_dec c2 b) as [->|N2];
    [rewrite Ascii.eqb_refl | apply Ascii.eqb_neq in N2; now rewrite N2].
  destruct (ascii_dec c3 c) as [->|N3];
    [rewrite Ascii.eqb_refl | apply Ascii.eqb_neq in N3; now rewrite N3].
  now destruct t.
Qed.

Lemma prefix3_two (c1 c2 c3 a b : ascii) :
  String.prefix (String c1 (String c2 (String c3 ""))) (String a (String b ""))
  = false.
Proof.
  simpl. destruct (ascii_dec c1 a); [|reflexivity].
  destruct (ascii_dec c2 b); reflexivity.
Qed.

Lemma find_none_cons (pat : string) (a : ascii) (s : string) :
  find pat (String a s) = None ->
  String.prefix pat (String a s) = false /\ find pat s = None.
Proof.
  rewrite find_eq.
  destruct (String.prefix pat (String a s)); [discriminate|].
  destruct (find pat s) as [[b r]|]; [discriminate | auto].
Qed.

(** No fence arises across a code unit that is not a backtick. *)
Lemma find_separated (c : ascii) (x y : string) :
  c <> "`"%char ->
  find "```" x = None -> find "```" y = None ->
  find "```" (x ++ String c y) = None.
Proof.
  intros Hc Hx Hy.
  assert (Ec : Ascii.eqb "`" c = false)
    by (apply Ascii.eqb_neq; congruence).
  induction x as [|a x IH].
  - cbn [append]. rewrite find_eq, (prefix_head "`" c "``" y Hc).
    now rewrite Hy.
  - apply find_none_cons in Hx as [Px Hx]. specialize (IH Hx).
    change (String a x ++ String c y) with (String a (x ++ String c y)).
    rewrite find_eq, IH.
    replace (String.prefix "```" (String a (x ++ String c y))) with false;
      [reflexivity|].
    symmetry. destruct x as [|b [|d t]]; cbn [append].
    + destruct y as [|y1 y]; [apply prefix3_two|].
      rewrite prefix3, Ec. now rewrite andb_false_r.
    + rewrite prefix3, Ec. apply andb_false_r.
    + rewrite prefix3. rewrite prefix3 in Px. exact Px.
Qed.

(** After a body without a fence that ends in a code unit other than a
    backtick, the first fence is the one that follows the body. *)
Lemma find_closing (b : string) (c : ascii) (rest : string) :
  c <> "`"%char ->
  find "```" (b ++ String c "") = None ->
  find "```" ((b ++ String c "") ++ "```" ++ rest)
  = Some (b ++ String c "", rest).
Proof.
  intros Hc.
  assert (Ec : Ascii.eqb "`" c = false)
    by (apply Ascii.eqb_neq; congruence).
  induction b as [|a b IH]; intros H.
  - cbn [append]. rewrite find_eq, (prefix_head "`" c "``" _ Hc).
    change (String "`" (String "`" (String "`" rest))) with ("```" ++ rest).
    rewrite find_eq, prefix_append. now rewrite (drop_append "```" rest).
  - change (String a b ++ String c "") with (String a (b ++ String c "")) in *.
    apply find_none_cons in H as [P H]. specialize (IH H).
    change (String a (b ++ String c "") ++ "```" ++ rest)
      with (String a ((b ++ String c "") ++ "```" ++ rest)).
    rewrite find_eq, IH.
    replace (String.prefix "```"
               (String a ((b ++ String c "") ++ "```" ++ rest))) with false;
      [reflexivity|].
    symmetry. destruct b as [|x [|y t]]; cbn [append] in *.
    + rewrite prefix3, Ec.
      now rewrite andb_false_r.
    + rewrite prefix3, Ec. apply andb_false_r.
    + rewrite prefix3. rewrite prefix3 in P. exact P.
Qed.

Lemma splitRe_fenced_body (b : string) (c : ascii) :
  c <> "`"%char ->
  find "```" (b ++ String c "") = None ->
  splitRe fenceRe ("```" ++ (b ++ String c "") ++ "```")
  = [""; "```" ++ (b ++ String c "") ++ "```"; ""].
Proof.
  intros Hc H. unfold splitRe.
  cbn [splitWith]. unfold fenceRe at 1.
  rewrite (prefix_append "```"), (drop_append "```").
  pose proof (find_closing b c "" Hc H) as F.
  change ("```" ++ "") with "```" in F. rewrite F.
  now rewrite splitWith_done.
Qed.

(** The fenced message of a language line and a code with no three
    backticks in a row. *)
Lemma formatMessage_fenced_any (lang code : string) :
  occurs LF lang = false ->
  find "```" lang = None ->
  find "```" code = None ->
  formatMessage (fenced lang code)
  = [TextSeg [Blank];
     Code (match trim lang with "" => "text" | l => l end) (code ++ nl);
     TextSeg [Blank]].
Proof.
  intros Hl Hb Hc.
  assert (Hlf : LF <> "`"%char) by discriminate.
  assert (Hbody : find "```" ((lang ++ nl ++ code) ++ String LF "") = None).
  { rewrite !append_assoc.
    apply (find_separated LF lang _ Hlf Hb).
    apply (find_separated LF code "" Hlf Hc). reflexivity. }
  unfold formatMessage, fenced.
  replace ("```" ++ lang ++ nl ++ code ++ nl ++ "```")
    with ("```" ++ ((lang ++ nl ++ code) ++ String LF "") ++ "```")
    by (unfold nl; now rewrite !append_assoc).
  rewrite (splitRe_fenced_body _ LF Hlf Hbody). cbn [map].
  replace (startsWith "```" "" && endsWith "```" "") with false by reflexivity.
  replace (formatTextWithMarkdown "") with [Blank] by reflexivity.
  unfold startsWith. rewrite (prefix_append "```").
  replace (endsWith "```"
             ("```" ++ ((lang ++ nl ++ code) ++ String LF "") ++ "```"))
    with true.
  2:{ rewrite <- append_assoc. symmetry. apply endsWith_append. }
  cbn [andb].
  pose proof (slice_middle "```" ((lang ++ nl ++ code) ++ String LF "") "```")
    as Sl.
  change (String.length "```") with 3 in Sl. rewrite Sl.
  replace ((lang ++ nl ++ code) ++ String LF "")
    with (lang ++ String LF (code ++ nl))
    by (unfold nl; now rewrite !append_assoc).
  rewrite (split_first LF lang (code ++ nl) Hl).
  cbn [hd tl].
  change (join nl (split LF (code ++ nl)))
    with (join (String LF "") (split LF (code ++ nl))).
  rewrite join_split.
  reflexivity.
Qed.

End FenceFacts.

(** ** The claims about rendering *)

Module RenderClaims.
Import Str StrFacts Render RenderFacts FenceFacts.

(** C4, as stated, fails: for the fenced message made of the language line
    [lang] and the code line [code], no segment is the code segment with
    language [lang] and body [code]. *)
Lemma fenced_body_counterexample :
  ~ In (Code "lang" "code") (formatMessage (fenced "lang" "code")).
Proof.
  vm_compute. intros [H|[H|[H|[]]]]; discriminate H.
Qed.

(** C4, amended: for a fenced message whose language line has no line feed
    and in which neither the language line nor the code has three backticks
    in a row, [formatMessage] gives an empty text segment, one code segment
    and an empty text segment; the language is the trimmed language line,
    or [text] when that is empty, and the body is the code followed by the
    line feed that precedes the closing fence.  For a non-empty language
    line without white space at its ends the language is that line
    itself. *)
Theorem fenced_code_segment (lang code : string) :
  occurs LF lang = false ->
  find "```" lang = None ->
  find "```" code = None ->
  formatMessage (fenced lang code)
  = [TextSeg [Blank];
     Code (match trim lang with "" => "text" | l => l end) (code ++ nl);
     TextSeg [Blank]]
  /\ (lang <> "" -> trim lang = lang ->
      In (Code lang (code ++ nl)) (formatMessage (fenced lang code))).
Proof.
  intros Hl Hb Hc.
  pose proof (formatMessage_fenced_any lang code Hl Hb Hc) as E.
  split; [exact E|].
  intros Hne Ht. rewrite E, Ht. right; left.
  destruct lang; [contradiction | reflexivity].
Qed.

(** A code line with single backticks in it. *)
Lemma fenced_code_segment_witness :
  occurs LF "js" = false /\ find "```" "js" = None
  /\ find "```" "const s = `hi`" = None
  /\ formatMessage (fenced "js" "const s = `hi`")
     = [TextSeg [Blank]; Code "js" ("const s = `hi`" ++ nl); TextSeg [Blank]].
Proof.
  assert (F : find "```" "const s = `hi`" = None) by (vm_compute; reflexivity).
  do 2 (split; [reflexivity|]). split; [exact F|].
  exact (proj1 (fenced_code_segment "js" "const s = `hi`" eq_refl eq_refl F)).
Defined.

(** C5, as stated, fails: the spans of the line are not the five listed
    ones, with or without the plain spans that have no text. *)
Lemma inline_example_counterexample :
  let claimed := [InlineCode "x=1"; PlainText " "; Bold "bold";
                  PlainText " and "; Italic "italic"] in
  let got := spans (formatInlineMarkdown "Use `x=1` **bold** and *italic*") in
  got <> claimed /\ filter visible got <> claimed.
Proof.
  vm_compute. split; intros H; discriminate H.
Qed.

(** C5, amended: the spans of the line are the plain text before the
    inline code, then the five listed spans, then a plain span without
    text; backticks are handled first, so that asterisks between backticks
    stay as they are, and two asterisks are handled before one. *)
Theorem inline_example :
  spans (formatInlineMarkdown "Use `x=1` **bold** and *italic*")
  = [PlainText "Use "; InlineCode "x=1"; PlainText " "; Bold "bold";
     PlainText " and "; Italic "italic"; PlainText ""]
  /\ filter visible (spans (formatInlineMarkdown "`**b** *i*`"))
     = [InlineCode "**b** *i*"]
  /\ boldPass "**b**" = [Sub [Text ""]; Strong "b"; Sub [Text ""]]
  /\ italicPass "**b**" = [Em ""; Em "b"; Em ""].
Proof. repeat split; reflexivity. Qed.

(** C6 fails on the code: a line that is just two backticks becomes an
    inline code element without text, and a line that is just four or two
    asterisks becomes a bold element without text; in each case the line's
    characters are gone from the rendered text. *)
Theorem empty_delimiters_vanish :
  formatInlineMarkdown "``" = [CodeNode ""]
  /\ formatInlineMarkdown "****" = [SpanNode [Strong ""]]
  /\ formatInlineMarkdown "**" = [SpanNode [Strong ""]]
  /\ spansText (spans (formatInlineMarkdown "``")) = ""
  /\ spansText (spans (formatInlineMarkdown "****")) = ""
  /\ spansText (spans (formatInlineMarkdown "**")) = ""
  /\ formatInlineMarkdown "a `` b" = [SpanNode [Sub [Text "a `` b"]]].
Proof. repeat split; reflexivity. Qed.

(** C7, as stated, fails: a plain line that starts with a blank is a
    paragraph whose spans give the line without that blank. *)
Lemma paragraph_round_trip_counterexample :
  formatTextWithMarkdown " hello" = [Paragraph [SpanNode [Sub [Text "hello"]]]]
  /\ renderedText (formatTextWithMarkdown " hello") <> " hello".
Proof.
  split; [reflexivity|]. vm_compute. intros H; discriminate H.
Qed.

(** C7, amended: for a single line without backtick and asterisk that is
    not blank, not a heading and not a list item, the line becomes one
    paragraph and the texts of its spans, one after the other, are the line
    without the white space at its two ends; they are the line itself when
    it has no white space there. *)
Theorem paragraph_round_trip (line : string) :
  occurs LF line = false ->
  occurs "`" line = false ->
  occurs "*" line = false ->
  trim line <> "" ->
  startsWith "#" (trim line) = false ->
  matchUl (trim line) = false ->
  matchOl (trim line) = None ->
  formatTextWithMarkdown line = [Paragraph (formatInlineMarkdown (trim line))]
  /\ renderedText (formatTextWithMarkdown line) = trim line
  /\ (trim line = line -> renderedText (formatTextWithMarkdown line) = line).
Proof.
  intros Hl Hb Ha Hne Hh Hu Ho.
  pose proof (formatTextWithMarkdown_paragraph line Hl Hne Hh Hu Ho) as E.
  assert (R : renderedText (formatTextWithMarkdown line) = trim line).
  { rewrite E.
    rewrite (formatInlineMarkdown_plain (trim line)
               (occurs_trim _ _ Hb) (occurs_trim _ _ Ha)).
    unfold renderedText. simpl. now rewrite !append_nil_r. }
  repeat split; [exact E | exact R | intros Ht; now rewrite R].
Qed.

(** A padded line with a dash, a digit and a full stop inside. *)
Lemma paragraph_round_trip_witness :
  let line := "  Hello, world - 2. done " in
  occurs LF line = false /\ occurs "`" line = false /\ occurs "*" line = false
  /\ trim line <> "" /\ startsWith "#" (trim line) = false
  /\ matchUl (trim line) = false /\ matchOl (trim line) = None
  /\ renderedText (formatTextWithMarkdown line) = "Hello, world - 2. done".
Proof.
  cbv zeta.
  assert (N : trim "  Hello, world - 2. done " <> "") by (vm_compute; discriminate).
  do 3 (split; [reflexivity|]). split; [exact N|].
  do 3 (split; [reflexivity|]).
  exact (proj1 (proj2 (paragraph_round_trip "  Hello, world - 2. done "
                         eq_refl eq_refl eq_refl N eq_refl eq_refl eq_refl))).
Defined.

End RenderClaims.

(** ** The conversation session: properties *)

Module SessionFacts.
Import Str Session.
Local Open Scope Z_scope.

(** Clearing a handle leaves no live timer with that handle. *)
Lemma lookup_cleared (h : nat) (l : list Interval) :
  List.find (fun t => Nat.eqb (handle t) h)
            (filter (fun t => negb (Nat.eqb (handle t) h)) l) = None.
Proof.
  induction l as [|t l IH]; simpl; [reflexivity|].
  destruct (Nat.eqb (handle t) h) eqn:E; simpl; [exact IH|].
  now rewrite E.
Qed.

Lemma tick_dead (h : nat) (now : Z) (s : State) :
  lookupTimer h s = None -> tick h now s = s.
Proof. intros H. unfold tick. now rewrite H. Qed.

(** A firing of the only live interval while words are left: the next
    prefix of the words is shown and the index moves on. *)
Lemma tick_shows ms inp ld sm st ref h nh fe aw t ws i cb now :
  (i < List.length ws)%nat ->
  tick h now (mkState ms inp ld sm st ref [mkInterval h t ws i cb] nh fe aw)
  = mkState ms inp ld (join " " (firstn (i + 1) ws)) st ref
            [mkInterval h t ws (i + 1) cb] nh fe aw.
Proof.
  intros H. apply Nat.ltb_lt in H.
  unfold tick, lookupTimer, storeTimer, setTimers, setStreamingMessage.
  cbn -[Nat.ltb Nat.eqb join firstn Nat.add].
  rewrite Nat.eqb_refl. cbn -[Nat.ltb Nat.eqb join firstn Nat.add].
  rewrite H. cbn -[Nat.ltb Nat.eqb join firstn Nat.add].
  rewrite ?Nat.eqb_refl. reflexivity.
Qed.

(** A firing of the only live interval, held by the reference, when no word
    is left: the interval is cleared, the flags are reset and the callback
    runs once. *)
Lemma tick_ends ms inp ld sm st h nh fe aw t ws i cb now :
  (List.length ws <= i)%nat ->
  tick h now (mkState ms inp ld sm st (Some h) [mkInterval h t ws i cb] nh fe aw)
  = mkState (cb t now ms) inp ld "" false None [] nh fe aw.
Proof.
  intros H. apply Nat.ltb_ge in H.
  unfold tick, lookupTimer, clearInterval, setTimers, setRef, setIsStreaming,
    setStreamingMessage, setMessages.
  cbn -[Nat.ltb Nat.eqb]. rewrite Nat.eqb_refl. cbn -[Nat.ltb Nat.eqb].
  rewrite H. cbn -[Nat.ltb Nat.eqb]. rewrite ?Nat.eqb_refl. reflexivity.
Qed.

(** After [k] firings, [k] at most the number of words, the first [k] words
    are shown, joined by single blanks. *)
Lemma reveal_prefix ms inp ld st ref h nh fe aw t ws cb now (k : nat) :
  (k <= List.length ws)%nat ->
  Nat.iter k (tick h now)
    (mkState ms inp ld "" st ref [mkInterval h t ws 0 cb] nh fe aw)
  = mkState ms inp ld (join " " (firstn k ws)) st ref
            [mkInterval h t ws k cb] nh fe aw.
Proof.
  induction k as [|k IH]; intros Hk.
  - reflexivity.
  - rewrite Nat.iter_succ, IH by lia. rewrite tick_shows by lia.
    now rewrite Nat.add_1_r.
Qed.

(** The handlers of the timer and of Stop leave the request state alone. *)
Lemma tick_request (h : nat) (now : Z) (s : State) :
  isLoading (tick h now s) = isLoading s /\ awaiting (tick h now s) = awaiting s.
Proof.
  unfold tick. destruct (lookupTimer h s) as [t|]; [|now split].
  destruct (currentIndex t <? List.length (words t))%nat; [now split|].
  unfold clearInterval. destruct (streamIntervalRef s); now split.
Qed.

Lemma stopStreaming_request (now : Z) (s : State) :
  isLoading (stopStreaming now s) = isLoading s
  /\ awaiting (stopStreaming now s) = awaiting s.
Proof.
  unfold stopStreaming. destruct (streamIntervalRef s); [|now split].
  cbn. destruct (isEmpty (streamingMessage s)); now split.
Qed.

Lemma step_oneRequest (s : State) (e : Event) :
  oneRequest s -> oneRequest (step s e).
Proof.
  unfold oneRequest. intros H. destruct e as [v|now|now|now|r now|h now]; simpl.
  - destruct (isLoading s) eqn:L; [now rewrite L|].
    cbn. now rewrite L.
  - destruct (isLoading s) eqn:L; [now rewrite L|].
    unfold sendMessage. rewrite L, orb_false_r.
    destruct (isEmpty (trim (input s))); [now rewrite L|].
    cbn. now rewrite H.
  - destruct (isStreaming s); [exact H|].
    unfold sendMessage.
    destruct (isEmpty (trim (input s)) || isLoading s) eqn:G; [exact H|].
    apply orb_false_iff in G as [_ L]. rewrite L in H. cbn. now rewrite H.
  - destruct (isStreaming s); [|exact H].
    destruct (stopStreaming_request now s) as [-> ->]. exact H.
  - unfold sendMessageResume.
    destruct (awaiting s) as [|n] eqn:A; [now rewrite A|].
    destruct (isLoading s); [|discriminate H]. injection H as ->.
    destruct r as [|[] [| |[reply|]]]; reflexivity.
  - destruct (tick_request h now s) as [-> ->]. exact H.
Qed.

(** Whatever happens on the page, at most one request is under way. *)
Lemma run_oneRequest (es : list Event) (s : State) :
  oneRequest s -> oneRequest (run s es).
Proof.
  revert s. induction es as [|e es IH]; intros s H; simpl; [exact H|].
  apply IH, step_oneRequest, H.
Qed.

(** [simulateStreaming] has no guard: called with a string it always sets a
    new interval, whatever intervals are live. *)
Lemma simulateStreaming_adds_timer (text : string)
    (cb : string -> Z -> list Message -> list Message) (s : State) :
  exists s',
    simulateStreaming (Some text) cb s = Returned s'
    /\ timers s' = (timers s ++ [mkInterval (nextHandle s) text (split " " text) 0 cb])%list
    /\ streamIntervalRef s' = Some (nextHandle s).
Proof. eexists. repeat split. Qed.

(** A failure before [simulateStreaming] is called: one message with the
    fixed text is appended, [isLoading] is cleared and [isStreaming] is left
    as it was. *)
Lemma early_failure_recovered (r : Settled) (now : Z) (s : State) :
  throwsEarly r = true -> awaiting s <> 0%nat ->
  let s' := sendMessageResume r now s in
  messages s' = (messages s ++ [mkMessage (now + 1) errorText assistant now])%list
  /\ isLoading s' = false
  /\ isStreaming s' = isStreaming s
  /\ timers s' = timers s.
Proof.
  intros Hr Ha. unfold sendMessageResume.
  destruct (awaiting s) as [|n]; [contradiction|].
  destruct r as [|[] [| |reply]]; try discriminate Hr; repeat split.
Qed.

End SessionFacts.

(** ** The claims about the session *)

Module SessionClaims.
Import Str Session SessionFacts.
Local Open Scope Z_scope.

(** C1 fails on the code: when a second message is sent with Enter while the
    reveal of the first answer is running, the second answer starts a second
    interval next to the first.  The reference then holds the second handle
    only, so Stop clears the second interval and the first goes on; once the
    first has shown its words, each of its firings appends its text again,
    and the second answer is never appended. *)
Theorem second_reveal_while_active :
  let s1 := run initial (oneReveal "a b c") in
  let s2 := run initial twoReveals in
  (isStreaming s1 = true /\ map handle (timers s1) = [1%nat])
  /\ (map handle (timers s2) = [1%nat; 2%nat]
      /\ streamIntervalRef s2 = Some 2%nat)
  /\ map handle (timers (step s2 (ClickStop 5))) = [1%nat]
  /\ (let s3 := run s2 [Tick 1 5; Tick 1 6; Tick 1 7; Tick 1 8;
                        Tick 1 9; Tick 1 10] in
      replies s3 = ["a b c"; "a b c"; "a b c"]
      /\ map handle (timers s3) = [1%nat]).
Proof. vm_compute. repeat split. Qed.

(** Alone, the reveal goes as it should: a reveal of the text [a b c] that
    starts when no interval is live shows [a], [a b] and [a b c] at its first three firings and appends
    nothing; the fourth firing ends it: the interval is cleared, the shown
    text and the streaming flag are reset and one assistant message with
    the full text is appended; after that no firing changes the state. *)
Theorem reveal_a_b_c (s : State) (t0 t1 t2 t3 t4 : Z) :
  timers s = [] -> awaiting s <> 0%nat ->
  let h := nextHandle s in
  let s0 := sendMessageResume (ok "a b c") t0 s in
  let s1 := tick h t1 s0 in
  let s2 := tick h t2 s1 in
  let s3 := tick h t3 s2 in
  let s4 := tick h t4 s3 in
  (isStreaming s0 = true /\ streamingMessage s0 = "" /\ messages s0 = messages s)
  /\ (streamingMessage s1 = "a" /\ messages s1 = messages s)
  /\ (streamingMessage s2 = "a b" /\ messages s2 = messages s)
  /\ (streamingMessage s3 = "a b c" /\ messages s3 = messages s
      /\ isStreaming s3 = true)
  /\ (isStreaming s4 = false /\ streamingMessage s4 = "" /\ timers s4 = []
      /\ streamIntervalRef s4 = None
      /\ messages s4
         = (messages s ++ [mkMessage (t4 + 1) "a b c" assistant t4])%list)
  /\ (forall h' t, tick h' t s4 = s4).
Proof.
  intros Ht Ha. destruct s as [ms inp ld sm st ref tm nh fe aw].
  simpl in Ht, Ha. subst tm. destruct aw as [|aw]; [contradiction|].
  intros h s0 s1 s2 s3 s4.
  assert (E0 : s0 = mkState ms inp false "" true (Some nh)
                      [mkInterval nh "a b c" ["a"; "b"; "c"] 0 appendReply]
                      (S nh) fe aw) by reflexivity.
  assert (E1 : s1 = mkState ms inp false "a" true (Some nh)
                      [mkInterval nh "a b c" ["a"; "b"; "c"] 1 appendReply]
                      (S nh) fe aw).
  { subst s1 h. rewrite E0. cbn [nextHandle]. rewrite tick_shows; [reflexivity|].
    simpl; lia. }
  assert (E2 : s2 = mkState ms inp false "a b" true (Some nh)
                      [mkInterval nh "a b c" ["a"; "b"; "c"] 2 appendReply]
                      (S nh) fe aw).
  { subst s2 h. rewrite E1. cbn [nextHandle]. rewrite tick_shows; [reflexivity|].
    simpl; lia. }
  assert (E3 : s3 = mkState ms inp false "a b c" true (Some nh)
                      [mkInterval nh "a b c" ["a"; "b"; "c"] 3 appendReply]
                      (S nh) fe aw).
  { subst s3 h. rewrite E2. cbn [nextHandle]. rewrite tick_shows; [reflexivity|].
    simpl; lia. }
  assert (E4 : s4 = mkState (appendReply "a b c" t4 ms) inp false "" false None
                      [] (S nh) fe aw).
  { subst s4 h. rewrite E3. cbn [nextHandle]. rewrite tick_ends; [reflexivity|].
    simpl; lia. }
  rewrite E0, E1, E2, E3, E4. repeat split.
Qed.

(** The reveal of [a b c] for the first message of a session. *)
Lemma reveal_a_b_c_witness :
  timers asked = [] /\ awaiting asked <> 0%nat
  /\ messages
       (tick (nextHandle asked) 6
          (tick (nextHandle asked) 5
             (tick (nextHandle asked) 4
                (tick (nextHandle asked) 3
                   (sendMessageResume (ok "a b c") 2 asked)))))
     = (messages asked ++ [mkMessage (6 + 1) "a b c" assistant 6])%list.
Proof.
  assert (T : timers asked = []) by (vm_compute; reflexivity).
  assert (A : awaiting asked <> 0%nat) by (vm_compute; discriminate).
  split; [exact T|]. split; [exact A|].
  pose proof (reveal_a_b_c asked 2 3 4 5 6 T A) as H.
  cbv zeta in H.
  destruct H as (_ & _ & _ & _ & (_ & _ & _ & _ & M) & _).
  exact M.
Defined.

(** What Stop does for the reveal it holds: when Stop is handled while the
    reference holds the handle of a reveal, that interval is cleared, so that it never fires again (and no
    interval is left when it was the only one), and the reference and the
    streaming flag are reset; if the shown text is not
    empty exactly one assistant message with that text is appended and the
    shown text is reset, and if it is empty no message is appended. *)
Theorem cancel_active (s : State) (h : nat) (now : Z) :
  streamIntervalRef s = Some h ->
  let s' := stopStreaming now s in
  (streamIntervalRef s' = None /\ isStreaming s' = false)
  /\ (forall t, In t (timers s') -> handle t <> h)
  /\ (forall now', tick h now' s' = s')
  /\ ((forall t, In t (timers s) -> handle t = h) -> timers s' = [])
  /\ (streamingMessage s <> "" ->
      messages s'
      = (messages s ++ [mkMessage (now + 1) (streamingMessage s) assistant now])%list
      /\ streamingMessage s' = "")
  /\ (streamingMessage s = "" -> messages s' = messages s).
Proof.
  intros Hr. destruct s as [ms inp ld sm st ref tm nh fe aw].
  simpl in Hr. subst ref.
  assert (Hdead : forall t,
             In t (filter (fun t => negb (Nat.eqb (handle t) h)) tm) ->
             handle t <> h).
  { intros t Hin. apply filter_In in Hin as [_ Hin].
    apply negb_true_iff, Nat.eqb_neq in Hin. exact Hin. }
  assert (Hnone : (forall t, In t tm -> handle t = h) ->
                  filter (fun t => negb (Nat.eqb (handle t) h)) tm = []).
  { intros Hall. induction tm as [|t tm IH]; [reflexivity|].
    simpl. rewrite (Hall t (or_introl eq_refl)), Nat.eqb_refl. simpl.
    apply IH.
    - intros t' Hin. apply Hdead. simpl.
      destruct (Nat.eqb (handle t) h); [exact Hin | now right].
    - intros t' Hin. apply Hall. now right. }
  unfold stopStreaming; cbn -[Z.add].
  destruct sm as [|c sm]; cbn -[Z.add].
  - repeat split; try assumption; try contradiction.
    intros now'. apply tick_dead. apply lookup_cleared.
  - repeat split; try assumption; try discriminate.
    intros now'. apply tick_dead. apply lookup_cleared.
Qed.

(** Stop after two words of [a b c d]: the message appended is [a b]. *)
Lemma cancel_active_witness :
  streamIntervalRef halfway = Some 1%nat
  /\ streamingMessage halfway = "a b"
  /\ messages (stopStreaming 5 halfway)
     = (messages halfway ++ [mkMessage (5 + 1) "a b" assistant 5])%list.
Proof.
  assert (R : streamIntervalRef halfway = Some 1%nat) by (vm_compute; reflexivity).
  assert (P : streamingMessage halfway = "a b") by (vm_compute; reflexivity).
  split; [exact R|]. split; [exact P|].
  pose proof (cancel_active halfway 1%nat 5 R) as H.
  cbv zeta in H. destruct H as (_ & _ & _ & _ & M & _).
  rewrite P in M.
  exact (proj1 (M ltac:(discriminate))).
Defined.

(** C2 fails on the code: a reveal of [a b c] shows [a], [a b] and [a b c]
    at its first three firings, but when a second message is sent with Enter
    before it has ended, its interval is never cleared: the fourth firing
    appends [a b c] and every later firing appends it again, here three
    times in all.  The second reply, [d e], is appended zero times: its
    interval is the one that the end of the first reveal clears. *)
Theorem reveal_emitted_again :
  let s := run initial twoReveals in
  let s1 := step s (Tick 1 5) in
  let s2 := step s1 (Tick 1 6) in
  let s3 := step s2 (Tick 1 7) in
  let s4 := step s3 (Tick 1 8) in
  let s5 := step s4 (Tick 1 9) in
  let s6 := step s5 (Tick 1 10) in
  (streamingMessage s1 = "a" /\ streamingMessage s2 = "a b"
   /\ streamingMessage s3 = "a b c" /\ replies s3 = [])
  /\ (replies s4 = ["a b c"] /\ isStreaming s4 = false
      /\ map handle (timers s4) = [1%nat])
  /\ replies s5 = ["a b c"; "a b c"]
  /\ replies s6 = ["a b c"; "a b c"; "a b c"]
  /\ step s4 (Tick 2 9) = s4.
Proof. vm_compute. repeat split. Qed.

(** C3 fails on the code: with the two reveals of [twoReveals] live and
    [a b] shown by the first, Stop appends [a b] and clears the second
    interval, the one the reference holds; the first interval stays live,
    its next firing shows [a b c] and the one after appends [a b c], a
    second message for the reveal that was stopped. *)
Theorem stop_leaves_first_reveal :
  let s := run initial (twoReveals ++ [Tick 1 5; Tick 1 6]) in
  let c := step s (ClickStop 7) in
  (streamingMessage s = "a b" /\ isStreaming s = true
   /\ streamIntervalRef s = Some 2%nat)
  /\ (replies c = ["a b"] /\ isStreaming c = false
      /\ streamIntervalRef c = None /\ map handle (timers c) = [1%nat])
  /\ streamingMessage (step c (Tick 1 8)) = "a b c"
  /\ replies (run c [Tick 1 8; Tick 1 9]) = ["a b"; "a b c"]
  /\ map handle (timers (run c [Tick 1 8; Tick 1 9])) = [1%nat].
Proof. vm_compute. repeat split. Qed.

(** C8 fails on the code: when the response has a success status and a
    body that is JSON without a [reply] string, the error message is
    appended and [isLoading] is cleared, but [isStreaming] stays set with
    no interval behind it; Stop then changes nothing and Send is not
    offered. *)
Theorem reply_missing_leaves_streaming :
  let s := run initial replyMissing in
  replies s = [errorText]
  /\ isLoading s = false
  /\ isStreaming s = true
  /\ (timers s = [] /\ streamIntervalRef s = None)
  /\ step s (ClickStop 3) = s
  /\ step (step s (Typed "again")) (ClickSend 4) = step s (Typed "again").
Proof. vm_compute. repeat split. Qed.

(** C9: while [isLoading] is set, [sendMessage] returns the state as it is,
    from the Enter key as from the Send button: no message is appended and
    no request is sent. *)
Theorem submit_while_pending (s : State) (now : Z) :
  isLoading s = true ->
  sendMessage now s = s
  /\ step s (PressEnter now) = s
  /\ step s (ClickSend now) = s
  /\ List.length (messages (sendMessage now s)) = List.length (messages s)
  /\ fetched (sendMessage now s) = fetched s.
Proof.
  intros H.
  assert (E : sendMessage now s = s).
  { unfold sendMessage. now rewrite H, orb_true_r. }
  repeat split; try (now rewrite E); try exact E.
  - simpl. now rewrite H.
  - simpl. destruct (isStreaming s); [reflexivity | exact E].
Qed.

(** Sending again before the first request has settled. *)
Lemma submit_while_pending_witness :
  isLoading asked = true /\ sendMessage 2 asked = asked.
Proof.
  assert (L : isLoading asked = true) by (vm_compute; reflexivity).
  split; [exact L|].
  exact (proj1 (submit_while_pending asked 2 L)).
Defined.

(** C10: when the trimmed input is empty [sendMessage] returns the state as
    it is; when it is not empty and [isLoading] is clear, one user message
    holding the trimmed input is appended, one request holding the trimmed
    input is sent, the input is emptied and [isLoading] is set. *)
Theorem submit_trims_input (s : State) (now : Z) :
  (trim (input s) = "" -> sendMessage now s = s)
  /\ (trim (input s) <> "" -> isLoading s = false ->
      let s' := sendMessage now s in
      messages s' = (messages s ++ [mkMessage now (trim (input s)) user now])%list
      /\ fetched s' = (fetched s ++ [trim (input s)])%list
      /\ awaiting s' = S (awaiting s)
      /\ input s' = ""
      /\ isLoading s' = true
      /\ isStreaming s' = isStreaming s
      /\ streamingMessage s' = streamingMessage s).
Proof.
  unfold sendMessage. split.
  - intros E. now rewrite E.
  - intros Hne Hl. rewrite Hl.
    destruct (trim (input s)) as [|c t] eqn:E; [contradiction|].
    repeat split.
Qed.

(** An input of blanks only, and a padded input. *)
Lemma submit_trims_input_witness :
  let blank := setInput "   " initial in
  let padded := setInput "  hi there " initial in
  trim (input blank) = ""
  /\ sendMessage 1 blank = blank
  /\ trim (input padded) <> "" /\ isLoading padded = false
  /\ messages (sendMessage 1 padded) = [mkMessage 1 "hi there" user 1]
  /\ fetched (sendMessage 1 padded) = ["hi there"].
Proof.
  cbv zeta.
  assert (B : trim (input (setInput "   " initial)) = "")
    by (vm_compute; reflexivity).
  assert (T : trim (input (setInput "  hi there " initial)) = "hi there")
    by (vm_compute; reflexivity).
  assert (N : trim (input (setInput "  hi there " initial)) <> "")
    by (rewrite T; discriminate).
  split; [exact B|].
  split; [exact (proj1 (submit_trims_input (setInput "   " initial) 1) B)|].
  split; [exact N|]. split; [reflexivity|].
  pose proof (proj2 (submit_trims_input (setInput "  hi there " initial) 1)
                N eq_refl) as H.
  cbv zeta in H. destruct H as (M & F & _).
  rewrite T in M, F. split; [exact M | exact F].
Defined.

End SessionClaims.

(** ** More facts about the string primitives *)

Module StrMore.
Import Str StrFacts.

Lemma prefix_drop (p s : string) :
  String.prefix p s = true -> s = p ++ drop (String.length p) s.
Proof.
  revert s. induction p as [|a p IH]; intros s H; [reflexivity|].
  destruct s as [|b s]; [discriminate H|].
  simpl in H. destruct (ascii_dec a b) as [->|]; [|discriminate H].
  simpl. f_equal. now apply IH.
Qed.

Lemma span_append (p : ascii -> bool) (s : string) :
  s = fst (span p s) ++ snd (span p s).
Proof.
  induction s as [|a s IH]; simpl; [reflexivity|].
  destruct (p a); [|reflexivity].
  destruct (span p s) as [run rest]; simpl in *. now f_equal.
Qed.

Lemma find_sound (pat s before after : string) :
  find pat s = Some (before, after) -> s = before ++ pat ++ after.
Proof.
  revert before. induction s as [|a s IH]; intros before; rewrite find_eq.
  - destruct (String.prefix pat "") eqn:P; [|discriminate].
    intros [= <- <-]. apply (prefix_drop _ _ P).
  - destruct (String.prefix pat (String a s)) eqn:P.
    + intros [= <- <-]. apply (prefix_drop _ _ P).
    + destruct (find pat s) as [[b r]|]; [|discriminate].
      intros [= <- <-]. simpl. f_equal. now apply IH.
Qed.

Lemma fenceRe_lossless : lossless fenceRe.
Proof.
  intros s matched rest. unfold fenceRe.
  destruct (String.prefix "```" s) eqn:P; [|discriminate].
  destruct (find "```" (drop 3 s)) as [[b r]|] eqn:F; [|discriminate].
  intros [= <- <-]. apply find_sound in F.
  rewrite (prefix_drop _ _ P) at 1.
  change (String.length "```") with 3. rewrite F.
  simpl. now rewrite ?append_assoc.
Qed.

Lemma delimRe_lossless (c : ascii) (n : nat) : lossless (delimRe c n).
Proof.
  intros s matched rest. unfold delimRe.
  destruct (String.prefix (replicate n c) s) eqn:P; [|discriminate].
  pose proof (span_append (fun a => negb (Ascii.eqb a c)) (drop n s)) as Sp.
  destruct (span (fun a => negb (Ascii.eqb a c)) (drop n s)) as [run rest1].
  simpl in Sp.
  destruct run as [|a run]; [discriminate|].
  destruct (String.prefix (replicate n c) rest1) eqn:Q; [|discriminate].
  intros [= <- <-].
  assert (L : String.length (replicate n c) = n).
  { clear. induction n; simpl; [reflexivity | now f_equal]. }
  apply prefix_drop in P. apply prefix_drop in Q. rewrite L in P, Q.
  rewrite P at 1. rewrite Sp. rewrite Q at 1.
  rewrite !append_assoc. simpl. now rewrite !append_assoc.
Qed.

Lemma splitWith_not_nil (m : matcher) (k : nat) (cur s : string) :
  splitWith m k cur s <> [].
Proof.
  revert cur s. induction k as [|k IH]; intros cur s; simpl; [discriminate|].
  destruct (m s) as [[matched rest]|]; [discriminate|].
  destruct s; [discriminate | apply IH].
Qed.

Lemma join_cons (sep w : string) (l : list string) :
  l <> [] -> join sep (w :: l) = w ++ sep ++ join sep l.
Proof. destruct l; [contradiction | reflexivity]. Qed.

(** The pieces of a split, put together again, are the string. *)
Lemma splitWith_join (m : matcher) :
  lossless m ->
  forall k cur s, join "" (splitWith m k cur s) = cur ++ s.
Proof.
  intros Hm. induction k as [|k IH]; intros cur s; simpl; [reflexivity|].
  destruct (m s) as [[matched rest]|] eqn:E.
  - rewrite join_cons by discriminate.
    rewrite join_cons by apply splitWith_not_nil.
    rewrite IH. simpl. now rewrite (Hm _ _ _ E).
  - destruct s as [|a s]; [now rewrite append_nil_r|].
    rewrite IH, append_assoc. reflexivity.
Qed.

Lemma last_append (a b : string) : b <> "" -> last (a ++ b) = last b.
Proof.
  intros Hb. induction a as [|x a IH]; [reflexivity|].
  simpl. destruct (a ++ b) eqn:E; [|exact IH].
  destruct a; simpl in E; [contradiction | discriminate].
Qed.

Lemma last_occurs (c : ascii) (s : string) :
  last s = Some c -> occurs c s = true.
Proof.
  induction s as [|a s IH]; [discriminate|].
  simpl. destruct s as [|b s].
  - intros [= ->]. now rewrite Ascii.eqb_refl.
  - intros H. rewrite (IH H). apply orb_true_r.
Qed.

(** A string cut in two at any index. *)
Lemma substring_cut (n : nat) (s : string) :
  n <= String.length s ->
  s = substring 0 n s ++ substring n (String.length s - n) s.
Proof.
  revert s. induction n as [|n IH]; intros s H.
  - rewrite Nat.sub_0_r, substring_all. destruct s; reflexivity.
  - destruct s as [|a s]; [simpl in H; lia|].
    simpl in H. simpl. f_equal. apply IH. lia.
Qed.

Lemma endsWith_sound (p s : string) :
  endsWith p s = true -> exists x, s = x ++ p.
Proof.
  unfold endsWith. intros H. apply andb_true_iff in H as [L E].
  apply Nat.leb_le in L. apply String.eqb_eq in E.
  exists (substring 0 (String.length s - String.length p) s).
  rewrite (substring_cut (String.length s - String.length p) s) at 1 by lia.
  replace (String.length s - (String.length s - String.length p))
    with (String.length p) by lia.
  now rewrite E.
Qed.

(** A string that ends in a code unit other than [c] does not end with a
    delimiter made of [c]. *)
Lemma endsWith_absent (c : ascii) (n : nat) (x s : string) :
  occurs c s = false -> s <> "" ->
  endsWith (replicate (S n) c) (x ++ s) = false.
Proof.
  intros Ho Hne.
  destruct (endsWith (replicate (S n) c) (x ++ s)) eqn:E; [|reflexivity].
  apply endsWith_sound in E as [y E].
  assert (L : last (y ++ replicate (S n) c) = Some c).
  { rewrite last_append by discriminate.
    clear. induction n as [|n IH]; [reflexivity|].
    change (replicate (S (S n)) c) with (String c (replicate (S n) c)).
    simpl last. simpl in IH. exact IH. }
  rewrite <- E, last_append in L by exact Hne.
  apply last_occurs in L. congruence.
Qed.

(** *** [split] after [join] *)

Lemma split_join (c : ascii) (l : list string) :
  l <> [] -> Forall (fun w => occurs c w = false) l ->
  split c (join (String c "") l) = l.
Proof.
  induction l as [|w l IH]; [contradiction|].
  intros _ H. inversion H as [|? ? Hw Hl]; subst.
  destruct l as [|w' l].
  - simpl. now apply split_absent.
  - rewrite join_cons by discriminate.
    change (w ++ String c "" ++ join (String c "") (w' :: l))
      with (w ++ String c (join (String c "") (w' :: l))).
    rewrite (split_first c w _ Hw). f_equal.
    apply IH; [discriminate | exact Hl].
Qed.

(** *** White space at the two ends *)

Lemma length_trimStart (s : string) :
  String.length (trimStart s) <= String.length s.
Proof.
  induction s as [|a s IH]; simpl; [lia|].
  destruct (is_space a); simpl; lia.
Qed.

Lemma length_trimEnd (s : string) :
  String.length (trimEnd s) <= String.length s.
Proof.
  induction s as [|a s IH]; simpl; [lia|].
  destruct (trimEnd s); [destruct (is_space a)|]; simpl in *; lia.
Qed.

(** A string that [trim] leaves alone starts with a code unit that is not
    white space, unless it is empty. *)
Lemma trimmed_head (a : ascii) (s : string) :
  trim (String a s) = String a s -> is_space a = false.
Proof.
  unfold trim. simpl. destruct (is_space a); [|reflexivity].
  intros H. pose proof (length_trimEnd (trimStart s)) as L1.
  pose proof (length_trimStart s) as L2.
  rewrite H in L1. simpl in L1. lia.
Qed.

Lemma trimmed_trimEnd (s : string) : trim s = s -> trimEnd s = s.
Proof.
  destruct s as [|a s]; [reflexivity|].
  intros H. pose proof (trimmed_head a s H) as Ha.
  unfold trim in H. simpl in H. rewrite Ha in H. exact H.
Qed.

Lemma trimEnd_append (x t : string) :
  trimEnd t <> "" -> trimEnd (x ++ t) = x ++ trimEnd t.
Proof.
  intros H. induction x as [|a x IH]; [reflexivity|].
  simpl. rewrite IH.
  destruct (x ++ trimEnd t) eqn:E; [|reflexivity].
  destruct x; simpl in E; [contradiction | discriminate].
Qed.

(** Text that [trim] leaves alone stays as it is behind a prefix that starts
    with a code unit other than white space. *)
Lemma trim_prefixed (a : ascii) (x t : string) :
  is_space a = false -> trim t = t -> t <> "" ->
  trim (String a x ++ t) = String a x ++ t.
Proof.
  intros Ha Ht Hne. unfold trim.
  change (String a x ++ t) with (String a (x ++ t)).
  cbn [trimStart]. rewrite Ha.
  change (String a (x ++ t)) with (String a x ++ t).
  rewrite trimEnd_append; rewrite (trimmed_trimEnd t Ht); [reflexivity | exact Hne].
Qed.

End StrMore.

(** ** More facts about the rendering pipeline *)

Module RenderMore.
Import Str StrFacts StrMore Render RenderFacts.

Lemma length_replicate (n : nat) (c : ascii) :
  String.length (replicate n c) = n.
Proof. induction n; simpl; [reflexivity | now f_equal]. Qed.

Lemma prefix_same (c : ascii) (p s : string) :
  String.prefix (String c p) (String c s) = String.prefix p s.
Proof. simpl. destruct (ascii_dec c c); [reflexivity | contradiction]. Qed.

(** *** Walking over text in which nothing matches *)

(** One step over a code unit at which the matcher fails. *)
Lemma splitWith_step (m : matcher) (a : ascii) (r cur : string) (k : nat) :
  advances m -> m (String a r) = None ->
  String.length (String a r) < k ->
  splitWith m k cur (String a r) = splitWith m k (cur ++ String a "") r.
Proof.
  intros Hm Hn Hk. destruct k as [|k]; [lia|].
  transitivity (splitWith m k (cur ++ String a "") r).
  - simpl. now rewrite Hn.
  - apply (splitWith_enough m Hm); simpl in *; lia.
Qed.

(** A step at a match. *)
Lemma splitWith_match (m : matcher) (s matched rest cur : string) (k : nat) :
  advances m -> m s = Some (matched, rest) ->
  String.length s < k ->
  splitWith m k cur s = cur :: matched :: splitWith m k "" rest.
Proof.
  intros Hm Hs Hk. destruct k as [|k]; [lia|].
  transitivity (cur :: matched :: splitWith m k "" rest).
  - simpl. now rewrite Hs.
  - do 2 f_equal. pose proof (Hm _ _ _ Hs).
    apply (splitWith_enough m Hm); lia.
Qed.

(** A run of code units at each of which the matcher fails. *)
Lemma splitWith_skip (m : matcher) (c : ascii) :
  advances m ->
  (forall a s, a <> c -> m (String a s) = None) ->
  forall pre rest cur k,
    occurs c pre = false ->
    String.length (pre ++ rest) < k ->
    splitWith m k cur (pre ++ rest) = splitWith m k (cur ++ pre) rest.
Proof.
  intros Hm Hhead. induction pre as [|a pre IH]; intros rest cur k Ho Hk.
  - now rewrite append_nil_r.
  - simpl in Ho. apply orb_false_iff in Ho as [Ha Ho].
    apply Ascii.eqb_neq in Ha.
    change (String a pre ++ rest) with (String a (pre ++ rest)) in *.
    rewrite splitWith_step by (auto using Hhead).
    rewrite IH by (simpl in Hk; auto; lia).
    now rewrite append_assoc.
Qed.

Lemma fenceRe_head (a : ascii) (s : string) :
  a <> "`"%char -> fenceRe (String a s) = None.
Proof.
  intros H. unfold fenceRe.
  now rewrite (prefix_head "`" a "``" s H).
Qed.

Lemma delimRe_head (c : ascii) (n : nat) (a : ascii) (s : string) :
  a <> c -> delimRe c (S n) (String a s) = None.
Proof.
  intros H. unfold delimRe. cbn [replicate].
  now rewrite (prefix_head c a (replicate n c) s H).
Qed.

Lemma fenceRe_absent (s : string) :
  occurs "`" s = false -> fenceRe s = None.
Proof.
  intros H. unfold fenceRe.
  pose proof (prefix_occurs "`" 2 s H) as P. cbn [replicate] in P.
  now rewrite P.
Qed.

Lemma splitWith_fence_absent (k : nat) (cur s : string) :
  occurs "`" s = false -> splitWith fenceRe k cur s = [cur ++ s].
Proof.
  revert cur s. induction k as [|k IH]; intros cur s H; simpl; [reflexivity|].
  rewrite (fenceRe_absent s H).
  destruct s as [|a s]; [now rewrite append_nil_r|].
  simpl in H. apply orb_false_iff in H as [_ H].
  rewrite (IH _ _ H), append_assoc. reflexivity.
Qed.

Lemma find_absent (s : string) :
  occurs "`" s = false -> find "```" s = None.
Proof.
  induction s as [|a s IH]; intros H; rewrite find_eq.
  - reflexivity.
  - pose proof (prefix_occurs "`" 2 _ H) as P. cbn [replicate] in P.
    rewrite P. simpl in H. apply orb_false_iff in H as [_ H].
    now rewrite (IH H).
Qed.

(** *** Fences *)

(** Text, a fenced part, text: three pieces. *)
Lemma splitRe_fence (pre body post : string) :
  occurs "`" pre = false -> occurs "`" body = false ->
  occurs "`" post = false ->
  splitRe fenceRe (pre ++ "```" ++ body ++ "```" ++ post)
  = [pre; "```" ++ body ++ "```"; post].
Proof.
  intros Hp Hb Hq. unfold splitRe.
  rewrite (splitWith_skip fenceRe "`" fenceRe_progress fenceRe_head)
    by (auto; lia).
  assert (M : fenceRe ("```" ++ body ++ "```" ++ post)
              = Some ("```" ++ body ++ "```", post)).
  { unfold fenceRe. rewrite (prefix_append "```"), (drop_append "```").
    now rewrite (find_fence body post Hb). }
  rewrite (splitWith_match fenceRe _ _ _ _ _ fenceRe_progress M)
    by (rewrite !length_append; simpl; lia).
  now rewrite splitWith_fence_absent.
Qed.

(** A fence that is not closed: one piece. *)
Lemma splitRe_open_fence (pre body : string) :
  occurs "`" pre = false -> occurs "`" body = false ->
  splitRe fenceRe (pre ++ "```" ++ body) = [pre ++ "```" ++ body].
Proof.
  intros Hp Hb. unfold splitRe.
  rewrite (splitWith_skip fenceRe "`" fenceRe_progress fenceRe_head)
    by (auto; lia).
  assert (L : String.length ("```" ++ body)
              < S (String.length (pre ++ "```" ++ body))).
  { rewrite !length_append. simpl. lia. }
  pose proof (prefix_occurs "`" 0 body Hb) as P1.
  pose proof (prefix_occurs "`" 1 body Hb) as P2.
  cbn [replicate] in P1, P2.
  change ("```" ++ body) with (String "`" (String "`" (String "`" body))) in *.
  rewrite splitWith_step;
    [ | exact fenceRe_progress
      | unfold fenceRe; rewrite !prefix_same;
        replace (String.prefix "" body) with true by (now destruct body);
        change (drop 3 (String "`" (String "`" (String "`" body)))) with body;
        now rewrite (find_absent body Hb)
      | exact L ].
  rewrite splitWith_step;
    [ | exact fenceRe_progress
      | unfold fenceRe; now rewrite !prefix_same, P1
      | simpl in *; lia ].
  rewrite splitWith_step;
    [ | exact fenceRe_progress
      | unfold fenceRe; now rewrite !prefix_same, P2
      | simpl in *; lia ].
  rewrite splitWith_fence_absent by exact Hb.
  now rewrite !append_assoc.
Qed.

End RenderMore.

(** ** Further properties of the rendering pipeline *)

Module RenderExtras.
Import Str StrFacts StrMore Render RenderFacts RenderMore.

(** X1: the pieces that [split] gives for the fence expression and for the
    three inline expressions, joined without a separator, are the string
    that was split: no text is lost and none is made up. *)
Theorem split_loses_nothing (s : string) :
  join "" (splitRe fenceRe s) = s
  /\ join "" (splitRe (delimRe "`" 1) s) = s
  /\ join "" (splitRe (delimRe "*" 2) s) = s
  /\ join "" (splitRe (delimRe "*" 1) s) = s.
Proof.
  unfold splitRe. repeat split.
  - apply (splitWith_join fenceRe fenceRe_lossless).
  - apply (splitWith_join _ (delimRe_lossless "`" 1)).
  - apply (splitWith_join _ (delimRe_lossless "*" 2)).
  - apply (splitWith_join _ (delimRe_lossless "*" 1)).
Qed.

(** X2: a message without a backtick is one text segment holding the blocks
    of the whole message. *)
Theorem no_backtick_one_segment (content : string) :
  occurs "`" content = false ->
  formatMessage content = [TextSeg (formatTextWithMarkdown content)].
Proof.
  intros H. unfold formatMessage, splitRe.
  rewrite (splitWith_fence_absent _ "" content H). cbn [map append].
  pose proof (startsWith_absent "`" 2 content H) as P. cbn [replicate] in P.
  now rewrite P.
Qed.

(** A message of two plain lines. *)
Lemma no_backtick_one_segment_witness :
  occurs "`" ("one" ++ nl ++ "two") = false
  /\ formatMessage ("one" ++ nl ++ "two")
     = [TextSeg (formatTextWithMarkdown ("one" ++ nl ++ "two"))].
Proof.
  assert (H : occurs "`" ("one" ++ nl ++ "two") = false)
    by (vm_compute; reflexivity).
  split; [exact H|]. exact (no_backtick_one_segment _ H).
Defined.

(** X3: a fenced block between two texts without backticks gives three
    segments in order: the blocks of the text before, the code segment and
    the blocks of the text after; the text around the fences does not
    reach the code and the code does not reach the text. *)
Theorem fenced_between_texts (pre lang code post : string) :
  occurs "`" pre = false ->
  occurs LF lang = false -> occurs "`" lang = false ->
  occurs "`" code = false ->
  occurs "`" post = false ->
  formatMessage (pre ++ fenced lang code ++ post)
  = [TextSeg (formatTextWithMarkdown pre);
     Code (match trim lang with "" => "text" | l => l end) (code ++ nl);
     TextSeg (formatTextWithMarkdown post)].
Proof.
  intros Hp Hl Hb Hc Hq.
  assert (Hbody : occurs "`" (lang ++ nl ++ code ++ nl) = false).
  { rewrite !occurs_append, Hb, Hc. reflexivity. }
  unfold formatMessage, fenced.
  replace (pre ++ ("```" ++ lang ++ nl ++ code ++ nl ++ "```") ++ post)
    with (pre ++ "```" ++ (lang ++ nl ++ code ++ nl) ++ "```" ++ post)
    by (now rewrite !append_assoc).
  rewrite (splitRe_fence pre _ post Hp Hbody Hq). cbn [map].
  pose proof (startsWith_absent "`" 2 pre Hp) as P1.
  pose proof (startsWith_absent "`" 2 post Hq) as P2.
  cbn [replicate] in P1, P2. rewrite P1, P2. cbn [andb].
  unfold startsWith at 1. rewrite (prefix_append "```").
  replace (endsWith "```" ("```" ++ (lang ++ nl ++ code ++ nl) ++ "```")) with true.
  2:{ rewrite <- append_assoc. symmetry. apply endsWith_append. }
  cbn [andb].
  pose proof (slice_middle "```" (lang ++ nl ++ code ++ nl) "```") as Sl.
  change (String.length "```") with 3 in Sl. rewrite Sl.
  change (lang ++ nl ++ code ++ nl) with (lang ++ String LF (code ++ nl)).
  rewrite (split_first LF lang (code ++ nl) Hl).
  cbn [hd tl].
  change (join nl (split LF (code ++ nl)))
    with (join (String LF "") (split LF (code ++ nl))).
  rewrite join_split.
  reflexivity.
Qed.

(** A sentence, a block of two lines of code, a sentence. *)
Lemma fenced_between_texts_witness :
  let code := "x = 1" ++ nl ++ "y = *x*" in
  occurs "`" "Run this:" = false
  /\ occurs LF "py" = false /\ occurs "`" "py" = false
  /\ occurs "`" code = false
  /\ occurs "`" "Done." = false
  /\ formatMessage ("Run this:" ++ fenced "py" code ++ "Done.")
     = [TextSeg (formatTextWithMarkdown "Run this:");
        Code "py" (code ++ nl);
        TextSeg (formatTextWithMarkdown "Done.")].
Proof.
  cbv zeta.
  assert (Hc : occurs "`" ("x = 1" ++ nl ++ "y = *x*") = false)
    by (vm_compute; reflexivity).
  do 3 (split; [reflexivity|]). split; [exact Hc|]. split; [reflexivity|].
  exact (fenced_between_texts "Run this:" "py" _ "Done."
           eq_refl eq_refl eq_refl Hc eq_refl).
Defined.

(** X4: a fence that is never closed starts no code segment: when the
    texts before and after the three backticks have no backtick and are
    not both empty, the whole message is one text segment. *)
Theorem open_fence_is_text (pre body : string) :
  occurs "`" pre = false -> occurs "`" body = false ->
  pre ++ body <> "" ->
  formatMessage (pre ++ "```" ++ body)
  = [TextSeg (formatTextWithMarkdown (pre ++ "```" ++ body))].
Proof.
  intros Hp Hb Hne. unfold formatMessage.
  rewrite (splitRe_open_fence pre body Hp Hb). cbn [map].
  destruct pre as [|a pre].
  - destruct body as [|b body]; [contradiction|].
    pose proof (endsWith_absent "`" 2 "```" (String b body) Hb) as E.
    cbn [replicate] in E. cbn [append] in *.
    rewrite E by discriminate. now rewrite andb_false_r.
  - simpl in Hp. apply orb_false_iff in Hp as [Ha _].
    apply Ascii.eqb_neq in Ha.
    unfold startsWith.
    change (String a pre ++ "```" ++ body)
      with (String a (pre ++ "```" ++ body)).
    now rewrite (prefix_head "`" a "``" _ Ha).
Qed.

(** A reply cut off inside its code block. *)
Lemma open_fence_is_text_witness :
  let body := "js" ++ nl ++ "let x" in
  occurs "`" "See:" = false /\ occurs "`" body = false
  /\ "See:" ++ body <> ""
  /\ formatMessage ("See:" ++ "```" ++ body)
     = [TextSeg (formatTextWithMarkdown ("See:" ++ "```" ++ body))].
Proof.
  cbv zeta.
  assert (Hb : occurs "`" ("js" ++ nl ++ "let x") = false)
    by (vm_compute; reflexivity).
  assert (Hne : "See:" ++ ("js" ++ nl ++ "let x") <> "") by discriminate.
  split; [reflexivity|]. split; [exact Hb|]. split; [exact Hne|].
  exact (open_fence_is_text "See:" _ eq_refl Hb Hne).
Defined.

End RenderExtras.

(** ** Facts about the blocks *)

Module BlockFacts.
Import Str StrFacts StrMore Render RenderFacts RenderMore.

Lemma isText_spec (t : string) :
  isText t = true -> occurs LF t = false /\ trim t = t /\ t <> "".
Proof.
  unfold isText. intros H.
  apply andb_true_iff in H as [H Hne]. apply andb_true_iff in H as [Hl Ht].
  apply negb_true_iff in Hl. apply String.eqb_eq in Ht.
  apply negb_true_iff, String.eqb_neq in Hne. auto.
Qed.

(** The longest run is the whole of a string of code units that satisfy
    [p], when the next code unit does not. *)
Lemma span_run (p : ascii -> bool) (run : string) (a : ascii) (r : string) :
  all p run = true -> p a = false ->
  span p (run ++ String a r) = (run, String a r).
Proof.
  intros Hr Ha. induction run as [|b run IH]; simpl.
  - now rewrite Ha.
  - simpl in Hr. apply andb_true_iff in Hr as [Hb Hr].
    now rewrite Hb, (IH Hr).
Qed.

Lemma all_replicate (p : ascii -> bool) (n : nat) (c : ascii) :
  p c = true -> all p (replicate n c) = true.
Proof. intros H. induction n; simpl; [reflexivity | now rewrite H]. Qed.

Lemma occurs_replicate (c d : ascii) (n : nat) :
  Ascii.eqb d c = false -> occurs c (replicate n d) = false.
Proof. intros H. induction n; simpl; [reflexivity | now rewrite H]. Qed.

Lemma allDigits_all (s : string) :
  allDigits s = true -> all is_digit s = true /\ s <> "".
Proof.
  induction s as [|a s IH]; [discriminate|].
  destruct s as [|b s].
  - simpl. intros ->. split; [reflexivity | discriminate].
  - intros H. change (is_digit a && allDigits (String b s) = true) in H.
    apply andb_true_iff in H as [Ha H]. destruct (IH H) as [IH' _].
    split; [|discriminate].
    change (is_digit a && all is_digit (String b s) = true).
    now rewrite Ha, IH'.
Qed.

(** A digit is neither white space, nor a line feed, nor a hash, nor a
    bullet. *)
Lemma digit_other (a : ascii) :
  is_digit a = true ->
  is_space a = false /\ Ascii.eqb a LF = false /\ a <> "#"%char
  /\ isBullet a = false.
Proof.
  intros H.
  assert (R : 48 <= nat_of_ascii a <= 57).
  { unfold is_digit in H. apply andb_true_iff in H as [H1 H2].
    apply Nat.leb_le in H1. apply Nat.leb_le in H2. lia. }
  assert (N : forall b, nat_of_ascii b < 48 -> a <> b).
  { intros b Hb ->. lia. }
  repeat split.
  - unfold is_space.
    destruct (Nat.leb_spec 9 (nat_of_ascii a));
      destruct (Nat.leb_spec (nat_of_ascii a) 13);
      destruct (Nat.eqb_spec (nat_of_ascii a) 32);
      destruct (Nat.eqb_spec (nat_of_ascii a) 160); try lia; reflexivity.
  - apply Ascii.eqb_neq, N. vm_compute. lia.
  - apply N. vm_compute. lia.
  - unfold isBullet.
    assert (E : forall b, nat_of_ascii b < 48 -> Ascii.eqb a b = false)
      by (intros b Hb; apply Ascii.eqb_neq, N, Hb).
    rewrite !E by (vm_compute; lia). reflexivity.
Qed.

Lemma bullet_other (a : ascii) :
  isBullet a = true ->
  is_space a = false /\ Ascii.eqb a LF = false /\ a <> "#"%char.
Proof.
  unfold isBullet. intros H.
  apply orb_true_iff in H as [H|H]; [apply orb_true_iff in H as [H|H]|];
    apply Ascii.eqb_eq in H; subst a; repeat split; discriminate.
Qed.

(** *** Lines that are not list items *)

Lemma flushList_empty (st : Acc) : currentList st = [] -> flushList st = st.
Proof. intros H. unfold flushList. now rewrite H. Qed.

Lemma lineStep_block (st : Acc) (line : string) :
  isListItem line = false -> currentList st = [] ->
  lineStep st line = push (blockOf line) st.
Proof.
  intros Hi Hc. unfold lineStep, blockOf, isListItem in *.
  rewrite (flushList_empty st Hc).
  destruct (trim line) as [|a t]; [reflexivity|].
  destruct (startsWith "#" (String a t)); [reflexivity|].
  cbn [negb andb] in Hi.
  apply orb_false_iff in Hi as [Hu Ho]. rewrite Hu.
  destruct (matchOl (String a t)); [discriminate Ho | reflexivity].
Qed.

Lemma fold_blocks (lines : list string) (st : Acc) :
  forallb (fun l => negb (isListItem l)) lines = true ->
  currentList st = [] ->
  fold_left lineStep lines st
  = mkAcc (elements st ++ map blockOf lines)%list [] (listType st).
Proof.
  revert st. induction lines as [|l lines IH]; intros st H Hc.
  - simpl. rewrite app_nil_r. destruct st; simpl in *; now subst.
  - simpl in H. apply andb_true_iff in H as [Hl H].
    apply negb_true_iff in Hl.
    cbn [fold_left]. rewrite (lineStep_block st l Hl Hc).
    rewrite IH by (auto; exact Hc). cbn.
    now rewrite <- app_assoc.
Qed.

(** *** List items *)

Lemma listType_setListType (ty : ListType) (st : Acc) :
  listType (setListType ty st) = Some ty.
Proof.
  unfold setListType. destruct (listType st) as [t'|] eqn:E; [|reflexivity].
  destruct (ListType_eqb t' ty) eqn:B; [|reflexivity].
  rewrite E. destruct t', ty; try discriminate B; reflexivity.
Qed.

Lemma setListType_same (ty : ListType) (st : Acc) :
  listType st = Some ty -> setListType ty st = st.
Proof.
  intros H. unfold setListType. rewrite H. now destruct ty.
Qed.

Lemma fold_items (ty : ListType) (lines texts : list string) :
  Forall2 (itemOf ty) lines texts ->
  forall st, listType st = Some ty ->
  fold_left lineStep lines st
  = mkAcc (elements st)
          (currentList st ++ map formatInlineMarkdown texts)%list (Some ty).
Proof.
  induction 1 as [|line t lines texts Hi _ IH]; intros st Hs.
  - simpl. rewrite app_nil_r. destruct st; simpl in *; now subst.
  - cbn [fold_left]. rewrite (Hi st), (setListType_same ty st Hs).
    rewrite IH by exact Hs. cbn. now rewrite <- app_assoc.
Qed.

Lemma bullet_item (p : ascii * string) :
  isBullet (fst p) = true -> isText (snd p) = true ->
  itemOf ul (bulletLine p) (snd p) /\ occurs LF (bulletLine p) = false.
Proof.
  destruct p as [m t]. cbn [fst snd]. intros Hm Ht.
  destruct (bullet_other m Hm) as (Hs & Hl & Hh).
  destruct (isText_spec t Ht) as (Hlf & Htr & Hne).
  split.
  - intros st. unfold lineStep, bulletLine. cbn [fst snd].
    change (String m (" " ++ t)) with (String m " " ++ t).
    rewrite (trim_prefixed m " " t Hs Htr Hne).
    change (String m " " ++ t) with (String m (String " " t)).
    cbv zeta. unfold startsWith.
    rewrite (prefix_head "#" m "" _ Hh).
    unfold matchUl. fold (isBullet m). rewrite Hm. reflexivity.
  - unfold bulletLine. cbn [fst snd]. simpl. now rewrite Hl, Hlf.
Qed.

Lemma numbered_item (p : string * string) :
  allDigits (fst p) = true -> isText (snd p) = true ->
  itemOf ol (numberedLine p) (snd p) /\ occurs LF (numberedLine p) = false.
Proof.
  destruct p as [ds t]. cbn [fst snd]. intros Hd Ht.
  destruct (allDigits_all ds Hd) as [Hall Hds].
  destruct (isText_spec t Ht) as (Hlf & Htr & Hne).
  destruct ds as [|d ds]; [contradiction|].
  pose proof Hall as Hall'. simpl in Hall'.
  apply andb_true_iff in Hall' as [Hd1 Hrest].
  destruct (digit_other d Hd1) as (Hs & Hl & Hh & Hb).
  split.
  - intros st. unfold lineStep, numberedLine. cbn [fst snd].
    replace (String d ds ++ ". " ++ t) with (String d (ds ++ ". ") ++ t)
      by (simpl; now rewrite append_assoc).
    rewrite (trim_prefixed d (ds ++ ". ") t Hs Htr Hne).
    replace (String d (ds ++ ". ") ++ t)
      with (String d ds ++ String "." (String " " t))
      by (simpl; now rewrite append_assoc).
    cbv zeta.
    assert (M : matchOl (String d ds ++ String "." (String " " t)) = Some t).
    { unfold matchOl. rewrite (span_run is_digit _ "." _ Hall eq_refl).
      reflexivity. }
    rewrite M.
    change (String d ds ++ String "." (String " " t))
      with (String d (ds ++ String "." (String " " t))).
    unfold startsWith. rewrite (prefix_head "#" d "" _ Hh).
    unfold matchUl.
    destruct (ds ++ String "." (String " " t)) as [|b r] eqn:E.
    + reflexivity.
    + fold (isBullet d). rewrite Hb. reflexivity.
  - unfold numberedLine. cbn [fst snd].
    rewrite !occurs_append, Hlf.
    assert (O : forall s, all is_digit s = true -> occurs LF s = false).
    { clear. induction s as [|a s IH]; [reflexivity|]. simpl.
      intros H. apply andb_true_iff in H as [Ha H].
      destruct (digit_other a Ha) as (_ & -> & _). now apply IH. }
    now rewrite (O _ Hall).
Qed.

Lemma forall2_map {A : Type} (R : string -> string -> Prop)
    (f g : A -> string) (l : list A) :
  (forall x, In x l -> R (f x) (g x)) -> Forall2 R (map f l) (map g l).
Proof.
  induction l as [|x l IH]; intros H; simpl; constructor.
  - apply H. now left.
  - apply IH. intros y Hy. apply H. now right.
Qed.

End BlockFacts.

(** ** Further properties of the blocks *)

Module BlockExtras.
Import Str StrFacts StrMore Render RenderFacts RenderMore BlockFacts.

Lemma forallb_both {A : Type} (p q : A -> bool) (l : list A) :
  forallb (fun x => p x && q x) l = true ->
  forallb p l = true /\ forallb q l = true.
Proof.
  induction l as [|x l IH]; simpl; [auto|].
  intros H. apply andb_true_iff in H as [H1 H2].
  apply andb_true_iff in H1 as [Hp Hq]. destruct (IH H2) as [-> ->].
  now rewrite Hp, Hq.
Qed.

Lemma lines_split (lines : list string) :
  lines <> [] ->
  Forall (fun l => occurs LF l = false) lines ->
  split LF (join nl lines) = lines.
Proof. intros Hn Hl. exact (split_join LF lines Hn Hl). Qed.

(** The lists that the loop leaves: the items of one type give one list. *)
Lemma items_one_list (ty : ListType) (lines texts : list string) :
  lines <> [] -> Forall2 (itemOf ty) lines texts ->
  elements (flushList (fold_left lineStep lines (mkAcc [] [] None)))
  = [ListGroup (match ty with ul => false | ol => true end)
               (map formatInlineMarkdown texts)].
Proof.
  intros Hn H. destruct H as [|line t lines texts Hi H]; [contradiction|].
  cbn [fold_left]. rewrite (Hi _).
  rewrite (fold_items ty lines texts H)
    by (unfold pushItem; cbn [listType]; apply listType_setListType).
  destruct ty; reflexivity.
Qed.

(** Items of one type followed by items of the other give two lists. *)
Lemma items_two_lists (ty1 ty2 : ListType)
    (lines1 texts1 lines2 texts2 : list string) :
  ty1 <> ty2 -> lines1 <> [] -> lines2 <> [] ->
  Forall2 (itemOf ty1) lines1 texts1 -> Forall2 (itemOf ty2) lines2 texts2 ->
  elements (flushList
              (fold_left lineStep (lines1 ++ lines2) (mkAcc [] [] None)))
  = [ListGroup (match ty1 with ul => false | ol => true end)
               (map formatInlineMarkdown texts1);
     ListGroup (match ty2 with ul => false | ol => true end)
               (map formatInlineMarkdown texts2)].
Proof.
  intros Hty Hn1 Hn2 H1 H2. rewrite fold_left_app.
  destruct H1 as [|line1 t1 lines1 texts1 Hi1 H1]; [contradiction|].
  destruct H2 as [|line2 t2 lines2 texts2 Hi2 H2]; [contradiction|].
  cbn [fold_left]. rewrite (Hi1 _).
  rewrite (fold_items ty1 lines1 texts1 H1)
    by (unfold pushItem; cbn [listType]; apply listType_setListType).
  rewrite (Hi2 _).
  rewrite (fold_items ty2 lines2 texts2 H2)
    by (unfold pushItem; cbn [listType]; apply listType_setListType).
  destruct ty1, ty2; try contradiction; reflexivity.
Qed.

(** X5: when no line of a text is a list item, the text gives one block for
    each line, in the order of the lines: a blank block for a line of white
    space, a heading for a line that starts with a hash after trimming, a
    paragraph otherwise. *)
Theorem lines_give_blocks (lines : list string) :
  lines <> [] ->
  forallb (fun l => negb (occurs LF l) && negb (isListItem l)) lines = true ->
  formatTextWithMarkdown (join nl lines) = map blockOf lines
  /\ List.length (formatTextWithMarkdown (join nl lines)) = List.length lines.
Proof.
  intros Hn H. apply forallb_both in H as [Hl Hi].
  assert (E : formatTextWithMarkdown (join nl lines) = map blockOf lines).
  { unfold formatTextWithMarkdown.
    rewrite lines_split; [|exact Hn|].
    - rewrite (fold_blocks lines (mkAcc [] [] None) Hi eq_refl). reflexivity.
    - apply Forall_forall. intros l Hin.
      rewrite forallb_forall in Hl. apply negb_true_iff, Hl, Hin. }
  split; [exact E|]. rewrite E. apply length_map.
Qed.

(** A title, an empty line, a sentence, an indented second heading. *)
Lemma lines_give_blocks_witness :
  let lines := ["# Title"; ""; "Some *text*."; "  ## Next  "] in
  lines <> []
  /\ forallb (fun l => negb (occurs LF l) && negb (isListItem l)) lines = true
  /\ formatTextWithMarkdown (join nl lines) = map blockOf lines.
Proof.
  cbv zeta.
  assert (N : ["# Title"; ""; "Some *text*."; "  ## Next  "] <> [])
    by discriminate.
  assert (F : forallb (fun l => negb (occurs LF l) && negb (isListItem l))
                ["# Title"; ""; "Some *text*."; "  ## Next  "] = true)
    by (vm_compute; reflexivity).
  split; [exact N|]. split; [exact F|].
  exact (proj1 (lines_give_blocks _ N F)).
Defined.

(** X6: a line of [n] hashes, a blank and a title is a heading of level [n],
    or of level 6 when [n] is larger, whose content is the formatted
    title. *)
Theorem heading_line (n : nat) (title : string) :
  1 <= n -> isText title = true ->
  formatTextWithMarkdown (headingLine n title)
  = [Heading (Nat.min n 6) (formatInlineMarkdown title)].
Proof.
  intros Hn Ht. destruct (isText_spec title Ht) as (Hlf & Htr & Hne).
  destruct n as [|n]; [lia|].
  assert (Hline : occurs LF (headingLine (S n) title) = false).
  { unfold headingLine. rewrite !occurs_append, Hlf.
    now rewrite (occurs_replicate LF "#" (S n) eq_refl). }
  assert (Htrim : trim (headingLine (S n) title) = headingLine (S n) title).
  { unfold headingLine. cbn [replicate].
    replace (String "#" (replicate n "#") ++ " " ++ title)
      with (String "#" (replicate n "#" ++ " ") ++ title)
      by (simpl; now rewrite append_assoc).
    now apply trim_prefixed. }
  assert (Hspan : span isHash (headingLine (S n) title)
                  = (replicate (S n) "#", String " " title)).
  { unfold headingLine.
    apply (span_run isHash (replicate (S n) "#") " " title); [|reflexivity].
    now apply all_replicate. }
  assert (Hsp : span is_space (String " " title) = (" ", title)).
  { destruct title as [|a t]; [contradiction|].
    pose proof (trimmed_head a t Htr) as Ha.
    simpl. now rewrite Ha. }
  unfold formatTextWithMarkdown. rewrite (split_absent LF _ Hline).
  cbn [fold_left]. unfold lineStep. rewrite Htrim.
  assert (Hs : startsWith "#" (headingLine (S n) title) = true).
  { unfold startsWith, headingLine. cbn [replicate append].
    rewrite prefix_same. now destruct (replicate n "#" ++ String " " title). }
  unfold headingLevel, stripHeading. rewrite Hspan, Hs.
  cbn [fst snd]. rewrite Hsp, length_replicate.
  unfold headingLine. cbn [replicate append].
  reflexivity.
Qed.

(** Seven hashes: level 6. *)
Lemma heading_line_witness :
  1 <= 7 /\ isText "Deep *down*" = true
  /\ formatTextWithMarkdown (headingLine 7 "Deep *down*")
     = [Heading 6 (formatInlineMarkdown "Deep *down*")].
Proof.
  assert (T : isText "Deep *down*" = true) by (vm_compute; reflexivity).
  split; [lia|]. split; [exact T|].
  exact (heading_line 7 "Deep *down*" ltac:(lia) T).
Defined.

(** The run that [span] finds starts with the first code unit of the
    string, which satisfies the test. *)
Lemma span_head (p : ascii -> bool) (s : string) (a : ascii) (r rest : string) :
  span p s = (String a r, rest) -> exists s', s = String a s' /\ p a = true.
Proof.
  destruct s as [|b s]; cbn [span]; [discriminate|].
  destruct (p b) eqn:P; [|discriminate].
  destruct (span p s) as [run rest']. intros [= -> _ _]. eauto.
Qed.

(** A line whose trimmed text starts with a bullet and a white-space code
    unit is an item of an unordered list. *)
Lemma ul_line_item (line : string) :
  matchUl (trim line) = true -> itemOf ul line (ulText line).
Proof.
  intros H st. unfold lineStep, ulText.
  destruct (trim line) as [|a [|b r]]; try discriminate H.
  pose proof H as H0. unfold matchUl in H0. fold (isBullet a) in H0.
  apply andb_true_iff in H0 as [Hm _].
  destruct (bullet_other a Hm) as (_ & _ & Hh).
  cbv zeta. unfold startsWith.
  rewrite (prefix_head "#" a "" _ Hh). now rewrite H.
Qed.

(** A line whose trimmed text starts with digits, a full stop and a
    white-space code unit is an item of an ordered list. *)
Lemma ol_line_item (line t : string) :
  matchOl (trim line) = Some t -> itemOf ol line t.
Proof.
  intros H st. unfold lineStep.
  destruct (trim line) as [|a s]; [discriminate H|].
  assert (D : is_digit a = true).
  { unfold matchOl in H.
    destruct (span is_digit (String a s)) as [run rest] eqn:Sp.
    destruct run as [|d run]; [discriminate H|].
    apply span_head in Sp as (s' & E & P). now injection E as <- _. }
  destruct (digit_other a D) as (_ & _ & Hh & Hb).
  cbv zeta. unfold startsWith. rewrite (prefix_head "#" a "" _ Hh).
  assert (U : matchUl (String a s) = false).
  { destruct s as [|b r]; [reflexivity|].
    unfold matchUl. fold (isBullet a). now rewrite Hb. }
  now rewrite U, H.
Qed.

Lemma ul_lines (lines : list string) :
  forallb isUlLine lines = true ->
  Forall (fun l => occurs LF l = false) lines
  /\ Forall2 (itemOf ul) lines (map ulText lines).
Proof.
  induction lines as [|l lines IH]; intros H; [split; constructor|].
  simpl in H. apply andb_true_iff in H as [Hl H].
  unfold isUlLine in Hl. apply andb_true_iff in Hl as [Hn Hm].
  apply negb_true_iff in Hn. destruct (IH H) as [F1 F2].
  split; constructor; auto. now apply ul_line_item.
Qed.

Lemma ol_lines (lines : list string) :
  forallb isOlLine lines = true ->
  Forall (fun l => occurs LF l = false) lines
  /\ Forall2 (itemOf ol) lines (map olText lines).
Proof.
  induction lines as [|l lines IH]; intros H; [split; constructor|].
  simpl in H. apply andb_true_iff in H as [Hl H].
  unfold isOlLine in Hl. apply andb_true_iff in Hl as [Hn Hm].
  apply negb_true_iff in Hn. destruct (IH H) as [F1 F2].
  split; constructor; auto.
  unfold olText. destruct (matchOl (trim l)) as [t|] eqn:M; [|discriminate Hm].
  now apply ol_line_item.
Qed.

(** X7: lines that, once trimmed, start with one of the markers [-], [*],
    [+] and a white-space code unit, one after the other, give one
    unordered list with one item for each line, in order, whatever markers
    are mixed; each item holds the formatted rest of the trimmed line after
    the marker and that one code unit. *)
Theorem bullets_one_list (lines : list string) :
  lines <> [] ->
  forallb isUlLine lines = true ->
  formatTextWithMarkdown (join nl lines)
  = [ListGroup false (map (fun l => formatInlineMarkdown (ulText l)) lines)].
Proof.
  intros Hn H. destruct (ul_lines lines H) as [Hl Hi].
  unfold formatTextWithMarkdown. rewrite (lines_split lines Hn Hl).
  rewrite (items_one_list ul lines (map ulText lines) Hn Hi).
  now rewrite map_map.
Qed.

(** Three markers, two blanks after one, a tab after another, an indented
    line. *)
Lemma bullets_one_list_witness :
  let lines := ["- one"; "  *  **two**  ";
                String "+" (String (ascii_of_nat 9) "3")] in
  lines <> []
  /\ forallb isUlLine lines = true
  /\ formatTextWithMarkdown (join nl lines)
     = [ListGroup false (map (fun l => formatInlineMarkdown (ulText l)) lines)].
Proof.
  cbv zeta.
  assert (N : ["- one"; "  *  **two**  ";
               String "+" (String (ascii_of_nat 9) "3")] <> [])
    by discriminate.
  assert (F : forallb isUlLine
                ["- one"; "  *  **two**  ";
                 String "+" (String (ascii_of_nat 9) "3")] = true)
    by (vm_compute; reflexivity).
  split; [exact N|]. split; [exact F|].
  exact (bullets_one_list _ N F).
Defined.



(** X9: lines of the first kind (a marker [-], [*] or [+] and a white-space
    code unit at the start of the trimmed line) followed at once by lines of
    the second kind (digits, a full stop and a white-space code unit) give
    two lists, the unordered one and then the ordered one, and in the other
    order they give the ordered one and then the unordered one: a change of
    list type ends the list, without a blank line. *)
Theorem list_type_switch (bullets numbered : list string) :
  bullets <> [] -> numbered <> [] ->
  forallb isUlLine bullets = true ->
  forallb isOlLine numbered = true ->
  formatTextWithMarkdown (join nl (bullets ++ numbered))
  = [ListGroup false (map (fun l => formatInlineMarkdown (ulText l)) bullets);
     ListGroup true (map (fun l => formatInlineMarkdown (olText l)) numbered)]
  /\ formatTextWithMarkdown (join nl (numbered ++ bullets))
     = [ListGroup true (map (fun l => formatInlineMarkdown (olText l)) numbered);
        ListGroup false (map (fun l => formatInlineMarkdown (ulText l)) bullets)].
Proof.
  intros Nb Nn Fb Fn.
  destruct (ul_lines bullets Fb) as [Lb Tb].
  destruct (ol_lines numbered Fn) as [Ln Tn].
  unfold formatTextWithMarkdown. split.
  - rewrite lines_split;
      [ | intros E; apply app_eq_nil in E as [E _]; contradiction
        | apply Forall_app; split; assumption ].
    rewrite (items_two_lists ul ol _ _ _ _ ltac:(discriminate) Nb Nn Tb Tn).
    now rewrite !map_map.
  - rewrite lines_split;
      [ | intros E; apply app_eq_nil in E as [E _]; contradiction
        | apply Forall_app; split; assumption ].
    rewrite (items_two_lists ol ul _ _ _ _ ltac:(discriminate) Nn Nb Tn Tb).
    now rewrite !map_map.
Qed.

(** One bullet, then two numbers. *)
Lemma list_type_switch_witness :
  let bullets := ["-  a"] in
  let numbered := ["1. b"; " 2. c"] in
  bullets <> [] /\ numbered <> []
  /\ forallb isUlLine bullets = true
  /\ forallb isOlLine numbered = true
  /\ formatTextWithMarkdown (join nl (bullets ++ numbered))
     = [ListGroup false (map (fun l => formatInlineMarkdown (ulText l)) bullets);
        ListGroup true (map (fun l => formatInlineMarkdown (olText l)) numbered)].
Proof.
  cbv zeta.
  assert (Nb : ["-  a"] <> []) by discriminate.
  assert (Nn : ["1. b"; " 2. c"] <> []) by discriminate.
  assert (Fb : forallb isUlLine ["-  a"] = true) by (vm_compute; reflexivity).
  assert (Fn : forallb isOlLine ["1. b"; " 2. c"] = true)
    by (vm_compute; reflexivity).
  split; [exact Nb|]. split; [exact Nn|]. split; [exact Fb|].
  split; [exact Fn|].
  exact (proj1 (list_type_switch _ _ Nb Nn Fb Fn)).
Defined.

End BlockExtras.

(** ** Facts about the inline markers *)

Module InlineFacts.
Import Str StrFacts StrMore Render RenderFacts RenderMore BlockFacts.

Lemma all_absent (c : ascii) (s : string) :
  occurs c s = false -> all (fun a => negb (Ascii.eqb a c)) s = true.
Proof.
  induction s as [|a s IH]; simpl; [reflexivity|].
  intros H. apply orb_false_iff in H as [Ha H]. now rewrite Ha, IH.
Qed.

(** A marked text between two texts, the marker's code unit occurring
    nowhere else: three pieces. *)
Lemma splitRe_delimited (c : ascii) (n : nat) (pre t post : string) :
  occurs c pre = false -> occurs c t = false -> t <> "" ->
  occurs c post = false ->
  splitRe (delimRe c (S n))
    (pre ++ replicate (S n) c ++ t ++ replicate (S n) c ++ post)
  = [pre; replicate (S n) c ++ t ++ replicate (S n) c; post].
Proof.
  intros Hp Ht Hne Hq. unfold splitRe.
  rewrite (splitWith_skip _ c (delimRe_progress c n) (delimRe_head c n))
    by (auto; lia).
  assert (M : delimRe c (S n)
                (replicate (S n) c ++ t ++ replicate (S n) c ++ post)
              = Some (replicate (S n) c ++ t ++ replicate (S n) c, post)).
  { unfold delimRe. rewrite prefix_append.
    pose proof (drop_append (replicate (S n) c)) as D.
    rewrite length_replicate in D. rewrite D.
    change (replicate (S n) c ++ post)
      with (String c (replicate n c ++ post)).
    rewrite (span_run _ t c _ (all_absent c t Ht))
      by (now rewrite Ascii.eqb_refl).
    destruct t as [|a t]; [contradiction|].
    change (String c (replicate n c ++ post))
      with (replicate (S n) c ++ post).
    now rewrite prefix_append, D. }
  rewrite (splitWith_match _ _ _ _ _ _ (delimRe_progress c n) M)
    by (rewrite !length_append; simpl; lia).
  now rewrite splitWith_absent.
Qed.

(** Two single markers around a text: the expression for two markers
    matches nowhere. *)
Lemma splitRe_single_not_double (c : ascii) (pre t post : string) :
  occurs c pre = false -> occurs c t = false -> t <> "" ->
  occurs c post = false ->
  splitRe (delimRe c 2) (pre ++ String c (t ++ String c post))
  = [pre ++ String c (t ++ String c post)].
Proof.
  intros Hp Ht Hne Hq. unfold splitRe.
  rewrite (splitWith_skip _ c (delimRe_progress c 1) (delimRe_head c 1))
    by (auto; lia).
  destruct t as [|a t]; [contradiction|].
  assert (Ha : a <> c).
  { simpl in Ht. apply orb_false_iff in Ht as [Ht _].
    now apply Ascii.eqb_neq. }
  rewrite splitWith_step;
    [ | apply delimRe_progress
      | unfold delimRe; cbn [replicate append];
        now rewrite prefix_same, (prefix_head c a "" _ Ha)
      | repeat (simpl; rewrite ?length_append); lia ].
  rewrite (splitWith_skip _ c (delimRe_progress c 1) (delimRe_head c 1)
             (String a t) (String c post));
    [ | exact Ht | repeat (simpl; rewrite ?length_append); lia ].
  pose proof (prefix_occurs c 0 post Hq) as P. cbn [replicate] in P.
  rewrite splitWith_step;
    [ | apply delimRe_progress
      | unfold delimRe; cbn [replicate]; now rewrite prefix_same, P
      | repeat (simpl; rewrite ?length_append); lia ].
  rewrite splitWith_absent by exact Hq.
  f_equal. cbn [append]. rewrite !append_assoc. cbn [append].
  reflexivity.
Qed.

Lemma italicPass_plain (t : string) :
  occurs "*" t = false -> italicPass t = [Text t].
Proof.
  intros Ha. pose proof (startsWith_absent "*" 0 t Ha) as P.
  cbn [replicate] in P. unfold italicPass.
  rewrite (splitRe_absent "*" 0 t Ha). cbn [map]. now rewrite P.
Qed.

Lemma boldPass_plain (t : string) :
  occurs "*" t = false -> boldPass t = [Sub [Text t]].
Proof.
  intros Ha. pose proof (startsWith_absent "*" 1 t Ha) as P.
  cbn [replicate] in P. unfold boldPass.
  rewrite (splitRe_absent "*" 1 t Ha). cbn [map]. rewrite P.
  cbn [andb]. now rewrite italicPass_plain.
Qed.

End InlineFacts.

(** ** Further properties of the inline markers *)

Module InlineExtras.
Import Str StrFacts StrMore Render RenderFacts RenderMore BlockFacts InlineFacts.

(** X10: a non-empty text between two backticks, with plain text around it,
    becomes one inline code element holding the text as it is: asterisks
    between the backticks start no bold or italic element. *)
Theorem inline_code_inert (pre t post : string) :
  occurs "`" pre = false -> occurs "*" pre = false ->
  occurs "`" t = false -> t <> "" ->
  occurs "`" post = false -> occurs "*" post = false ->
  formatInlineMarkdown (pre ++ "`" ++ t ++ "`" ++ post)
  = [SpanNode [Sub [Text pre]]; CodeNode t; SpanNode [Sub [Text post]]].
Proof.
  intros Hp Hpa Ht Hne Hq Hqa. unfold formatInlineMarkdown.
  pose proof (splitRe_delimited "`" 0 pre t post Hp Ht Hne Hq) as S.
  cbn [replicate] in S. rewrite S. cbn [map].
  pose proof (startsWith_absent "`" 0 pre Hp) as P1.
  pose proof (startsWith_absent "`" 0 post Hq) as P2.
  cbn [replicate] in P1, P2. rewrite P1, P2. cbn [andb].
  rewrite (boldPass_plain pre Hpa), (boldPass_plain post Hqa).
  unfold startsWith. rewrite (prefix_append "`").
  replace (endsWith "`" ("`" ++ t ++ "`")) with true
    by (rewrite <- append_assoc; symmetry; apply endsWith_append).
  cbn [andb].
  pose proof (slice_middle "`" t "`") as Sl.
  change (String.length "`") with 1 in Sl. now rewrite Sl.
Qed.

(** Code with asterisks in it, in a sentence. *)
Lemma inline_code_inert_witness :
  occurs "`" "Use " = false /\ occurs "*" "Use " = false
  /\ occurs "`" "a**b**c*" = false /\ "a**b**c*" <> ""
  /\ occurs "`" " here" = false /\ occurs "*" " here" = false
  /\ formatInlineMarkdown ("Use " ++ "`" ++ "a**b**c*" ++ "`" ++ " here")
     = [SpanNode [Sub [Text "Use "]]; CodeNode "a**b**c*";
        SpanNode [Sub [Text " here"]]].
Proof.
  assert (N : "a**b**c*" <> "") by discriminate.
  do 3 (split; [reflexivity|]). split; [exact N|].
  do 2 (split; [reflexivity|]).
  exact (inline_code_inert "Use " "a**b**c*" " here"
           eq_refl eq_refl eq_refl N eq_refl eq_refl).
Defined.

(** X11: a non-empty text between two pairs of asterisks, with plain text
    around it and no asterisk or backtick inside, becomes one bold element
    holding the text, between the two plain texts. *)
Theorem bold_between_texts (pre t post : string) :
  occurs "`" pre = false -> occurs "*" pre = false ->
  occurs "`" t = false -> occurs "*" t = false -> t <> "" ->
  occurs "`" post = false -> occurs "*" post = false ->
  formatInlineMarkdown (pre ++ "**" ++ t ++ "**" ++ post)
  = [SpanNode [Sub [Text pre]; Strong t; Sub [Text post]]].
Proof.
  intros Hp Hpa Ht Hta Hne Hq Hqa.
  assert (Hw : occurs "`" (pre ++ "**" ++ t ++ "**" ++ post) = false).
  { rewrite !occurs_append, Hp, Ht, Hq. reflexivity. }
  unfold formatInlineMarkdown.
  rewrite (splitRe_absent "`" 0 _ Hw). cbn [map].
  pose proof (startsWith_absent "`" 0 _ Hw) as P. cbn [replicate] in P.
  rewrite P. cbn [andb]. unfold boldPass.
  pose proof (splitRe_delimited "*" 1 pre t post Hpa Hta Hne Hqa) as S.
  cbn [replicate] in S. rewrite S. cbn [map].
  pose proof (startsWith_absent "*" 1 pre Hpa) as P1.
  pose proof (startsWith_absent "*" 1 post Hqa) as P2.
  cbn [replicate] in P1, P2. rewrite P1, P2. cbn [andb].
  rewrite (italicPass_plain pre Hpa), (italicPass_plain post Hqa).
  unfold startsWith. rewrite (prefix_append "**").
  replace (endsWith "**" ("**" ++ t ++ "**")) with true
    by (rewrite <- append_assoc; symmetry; apply endsWith_append).
  cbn [andb].
  pose proof (slice_middle "**" t "**") as Sl.
  change (String.length "**") with 2 in Sl. now rewrite Sl.
Qed.

(** A bold word in a sentence. *)
Lemma bold_between_texts_witness :
  occurs "`" "a " = false /\ occurs "*" "a " = false
  /\ occurs "`" "big deal" = false /\ occurs "*" "big deal" = false
  /\ "big deal" <> ""
  /\ occurs "`" "!" = false /\ occurs "*" "!" = false
  /\ formatInlineMarkdown ("a " ++ "**" ++ "big deal" ++ "**" ++ "!")
     = [SpanNode [Sub [Text "a "]; Strong "big deal"; Sub [Text "!"]]].
Proof.
  assert (N : "big deal" <> "") by discriminate.
  do 4 (split; [reflexivity|]). split; [exact N|].
  do 2 (split; [reflexivity|]).
  exact (bold_between_texts "a " "big deal" "!"
           eq_refl eq_refl eq_refl eq_refl N eq_refl eq_refl).
Defined.

(** X12: a non-empty text between two single asterisks, with plain text
    around it and no asterisk or backtick inside, becomes one italic
    element holding the text, between the two plain texts, and no bold
    element. *)
Theorem italic_between_texts (pre t post : string) :
  occurs "`" pre = false -> occurs "*" pre = false ->
  occurs "`" t = false -> occurs "*" t = false -> t <> "" ->
  occurs "`" post = false -> occurs "*" post = false ->
  formatInlineMarkdown (pre ++ "*" ++ t ++ "*" ++ post)
  = [SpanNode [Sub [Text pre; Em t; Text post]]].
Proof.
  intros Hp Hpa Ht Hta Hne Hq Hqa.
  assert (Hw : occurs "`" (pre ++ "*" ++ t ++ "*" ++ post) = false).
  { rewrite !occurs_append, Hp, Ht, Hq. reflexivity. }
  destruct t as [|a t]; [contradiction|].
  assert (Ha : a <> "*"%char).
  { simpl in Hta. apply orb_false_iff in Hta as [Hta _].
    now apply Ascii.eqb_neq. }
  assert (D : startsWith "**" (pre ++ "*" ++ String a t ++ "*" ++ post) = false).
  { unfold startsWith. destruct pre as [|b pre].
    - cbn [append]. now rewrite prefix_same, (prefix_head "*" a "" _ Ha).
    - simpl in Hpa. apply orb_false_iff in Hpa as [Hb _].
      apply Ascii.eqb_neq in Hb.
      change (String b pre ++ "*" ++ String a t ++ "*" ++ post)
        with (String b (pre ++ "*" ++ String a t ++ "*" ++ post)).
      now rewrite (prefix_head "*" b "*" _ Hb). }
  unfold formatInlineMarkdown.
  rewrite (splitRe_absent "`" 0 _ Hw). cbn [map].
  pose proof (startsWith_absent "`" 0 _ Hw) as P. cbn [replicate] in P.
  rewrite P. cbn [andb]. unfold boldPass.
  pose proof (splitRe_single_not_double "*" pre (String a t) post
                Hpa Hta Hne Hqa) as S2.
  change (pre ++ String "*" (String a t ++ String "*" post))
    with (pre ++ "*" ++ String a t ++ "*" ++ post) in S2.
  rewrite S2. cbn [map]. rewrite D. cbn [andb]. unfold italicPass.
  pose proof (splitRe_delimited "*" 0 pre (String a t) post
                Hpa Hta Hne Hqa) as S1.
  cbn [replicate] in S1. rewrite S1. cbn [map].
  pose proof (startsWith_absent "*" 0 pre Hpa) as P1.
  pose proof (startsWith_absent "*" 0 post Hqa) as P2.
  cbn [replicate] in P1, P2. rewrite P1, P2. cbn [andb].
  replace (startsWith "*" ("*" ++ String a t ++ "*")) with true
    by (unfold startsWith; now rewrite (prefix_append "*")).
  replace (endsWith "*" ("*" ++ String a t ++ "*")) with true
    by (rewrite <- append_assoc; symmetry; apply endsWith_append).
  replace (startsWith "**" ("*" ++ String a t ++ "*")) with false
    by (unfold startsWith; cbn [append];
        now rewrite prefix_same, (prefix_head "*" a "" _ Ha)).
  cbn [andb negb].
  pose proof (slice_middle "*" (String a t) "*") as Sl.
  change (String.length "*") with 1 in Sl. now rewrite Sl.
Qed.

(** An italic word at the start of a line. *)
Lemma italic_between_texts_witness :
  occurs "`" "" = false /\ occurs "*" "" = false
  /\ occurs "`" "Note" = false /\ occurs "*" "Note" = false
  /\ "Note" <> ""
  /\ occurs "`" ": read on" = false /\ occurs "*" ": read on" = false
  /\ formatInlineMarkdown ("" ++ "*" ++ "Note" ++ "*" ++ ": read on")
     = [SpanNode [Sub [Text ""; Em "Note"; Text ": read on"]]].
Proof.
  assert (N : "Note" <> "") by discriminate.
  do 4 (split; [reflexivity|]). split; [exact N|].
  do 2 (split; [reflexivity|]).
  exact (italic_between_texts "" "Note" ": read on"
           eq_refl eq_refl eq_refl eq_refl N eq_refl eq_refl).
Defined.

End InlineExtras.

(** ** More facts about the session *)

Module SessionMore.
Import Str StrFacts StrMore Session SessionFacts.
Local Open Scope Z_scope.

(** The first words, joined, are the start of all the words, joined. *)
Lemma join_firstn (sep : string) (ws : list string) (k : nat) :
  exists rest, join sep ws = join sep (firstn k ws) ++ rest.
Proof.
  revert k. induction ws as [|w ws IH]; intros k.
  - exists "". now destruct k.
  - destruct k as [|k]; [now exists (join sep (w :: ws))|].
    cbn [firstn]. destruct ws as [|w' ws].
    + exists "". destruct k; simpl; now rewrite append_nil_r.
    + destruct (IH k) as [rest E].
      rewrite join_cons by discriminate. rewrite E.
      destruct (firstn k (w' :: ws)) as [|x xs] eqn:F.
      * exists (sep ++ rest). simpl. reflexivity.
      * exists rest. rewrite (join_cons sep w (x :: xs)) by discriminate.
        now rewrite !append_assoc.
Qed.

Lemma join_firstn_prefix (sep : string) (ws : list string) (k : nat) :
  String.prefix (join sep (firstn k ws)) (join sep ws) = true.
Proof.
  destruct (join_firstn sep ws k) as [rest E]. rewrite E.
  apply prefix_append.
Qed.

(** The state in which a reveal starts. *)
Lemma started_state (text : string) (now : Z) (s : State) :
  timers s = [] -> awaiting s <> 0%nat ->
  started text now s
  = mkState (messages s) (input s) false "" true (Some (nextHandle s))
            [mkInterval (nextHandle s) text (split " " text) 0 appendReply]
            (S (nextHandle s)) (fetched s) (pred (awaiting s)).
Proof.
  intros Ht Ha. destruct s as [ms inp ld sm st ref tm nh fe aw].
  simpl in *. subst tm. destruct aw as [|aw]; [contradiction|].
  reflexivity.
Qed.

(** The state after [k] firings of a reveal that started alone. *)
Lemma revealed_state (text : string) (t0 now : Z) (s : State) (k : nat) :
  timers s = [] -> awaiting s <> 0%nat ->
  (k <= List.length (split " " text))%nat ->
  Nat.iter k (tick (nextHandle s) now) (started text t0 s)
  = mkState (messages s) (input s) false
            (join " " (firstn k (split " " text))) true
            (Some (nextHandle s))
            [mkInterval (nextHandle s) text (split " " text) k appendReply]
            (S (nextHandle s)) (fetched s) (pred (awaiting s)).
Proof.
  intros Ht Ha Hk. rewrite (started_state text t0 s Ht Ha).
  now apply reveal_prefix.
Qed.

(** *** The invariants, handler by handler *)

Lemma find_in (h : nat) (l : list Interval) (t : Interval) :
  List.find (fun t => Nat.eqb (handle t) h) l = Some t ->
  In t l /\ handle t = h.
Proof.
  intros H. apply find_some in H as [Hin He].
  apply Nat.eqb_eq in He. auto.
Qed.

Lemma filter_user_app (ms : list Message) (m : Message) :
  role m = assistant ->
  map content (filter isUser (ms ++ [m])) = map content (filter isUser ms).
Proof.
  intros H. rewrite filter_app. simpl. unfold isUser at 2. rewrite H.
  now rewrite app_nil_r.
Qed.

Lemma handles_stored (t : Interval) (tnew : Interval) (l : list Interval) :
  handle tnew = handle t ->
  map handle
    (map (fun t' => if Nat.eqb (handle t') (handle tnew) then tnew else t') l)
  = map handle l.
Proof.
  intros H. induction l as [|x l IH]; simpl; [reflexivity|].
  rewrite IH. f_equal.
  destruct (Nat.eqb_spec (handle x) (handle tnew)) as [E|]; [|reflexivity].
  now rewrite E.
Qed.

Lemma tick_sound (h : nat) (now : Z) (s : State) :
  ownCallbacks s -> heldIsLive s -> sentIsShown s ->
  ownCallbacks (tick h now s) /\ heldIsLive (tick h now s)
  /\ sentIsShown (tick h now s)
  /\ exists l, messages (tick h now s) = (messages s ++ l)%list.
Proof.
  intros Hc Hh Hs. unfold tick, lookupTimer.
  destruct (List.find (fun t => Nat.eqb (handle t) h) (timers s)) as [t|] eqn:F.
  2:{ split; [|split; [|split]]; auto. exists []. now rewrite app_nil_r. }
  apply find_in in F as [Hin _].
  assert (Hcb : callback t = appendReply).
  { unfold ownCallbacks in Hc. rewrite Forall_forall in Hc. now apply Hc. }
  destruct (currentIndex t <? List.length (words t))%nat.
  - destruct s as [ms inp ld sm st ref tm nh fe aw].
    unfold ownCallbacks, heldIsLive, sentIsShown in *. cbn in *.
    split; [|split; [|split]].
    + apply Forall_forall. intros x Hx. apply in_map_iff in Hx as (y & <- & Hy).
      rewrite Forall_forall in Hc.
      destruct (Nat.eqb (handle y) (handle t)); [exact Hcb | now apply Hc].
    + intros h' Hr. destruct (Hh h' Hr) as [Hst Hl]. split; [exact Hst|].
      pose proof (handles_stored t
                    (mkInterval (handle t) (text t) (words t)
                                (currentIndex t + 1) (callback t)) tm eq_refl)
        as E.
      cbn in E. now rewrite E.
    + exact Hs.
    + exists []. now rewrite app_nil_r.
  - destruct s as [ms inp ld sm st ref tm nh fe aw].
    unfold ownCallbacks, heldIsLive, sentIsShown in *. cbn in *.
    rewrite Hcb. unfold appendReply.
    split; [|split; [|split]].
    + destruct ref as [r|]; cbn; [|exact Hc].
      rewrite Forall_forall in *. intros x Hx.
      apply filter_In in Hx as [Hx _]. now apply Hc.
    + destruct ref; cbn; intros h' Hr; discriminate Hr.
    + destruct ref; cbn; now rewrite filter_user_app.
    + destruct ref; cbn; eexists; reflexivity.
Qed.

Lemma stopStreaming_sound (now : Z) (s : State) :
  ownCallbacks s -> heldIsLive s -> sentIsShown s ->
  ownCallbacks (stopStreaming now s) /\ heldIsLive (stopStreaming now s)
  /\ sentIsShown (stopStreaming now s)
  /\ exists l, messages (stopStreaming now s) = (messages s ++ l)%list.
Proof.
  intros Hc Hh Hs. unfold stopStreaming.
  destruct s as [ms inp ld sm st ref tm nh fe aw].
  unfold ownCallbacks, heldIsLive, sentIsShown in *. cbn in *.
  destruct ref as [r|].
  2:{ split; [|split; [|split]]; auto. exists []. now rewrite app_nil_r. }
  assert (Hf : Forall (fun t => callback t = appendReply)
                 (filter (fun t => negb (Nat.eqb (handle t) r)) tm)).
  { rewrite Forall_forall in *. intros x Hx.
    apply filter_In in Hx as [Hx _]. now apply Hc. }
  destruct sm as [|c sm]; cbn; (split; [|split; [|split]]);
    try exact Hf; try (intros h' Hr; discriminate Hr).
  - exact Hs.
  - exists []. now rewrite app_nil_r.
  - now rewrite filter_user_app.
  - eexists; reflexivity.
Qed.

Lemma sendMessage_sound (now : Z) (s : State) :
  ownCallbacks s -> heldIsLive s -> sentIsShown s ->
  ownCallbacks (sendMessage now s) /\ heldIsLive (sendMessage now s)
  /\ sentIsShown (sendMessage now s)
  /\ exists l, messages (sendMessage now s) = (messages s ++ l)%list.
Proof.
  intros Hc Hh Hs. unfold sendMessage.
  destruct (isEmpty (trim (input s)) || isLoading s).
  { split; [|split; [|split]]; auto. exists []. now rewrite app_nil_r. }
  destruct s as [ms inp ld sm st ref tm nh fe aw].
  unfold ownCallbacks, heldIsLive, sentIsShown in *. cbn in *.
  split; [|split; [|split]].
  - exact Hc.
  - exact Hh.
  - rewrite filter_app, map_app. cbn. now rewrite Hs.
  - eexists; reflexivity.
Qed.

Lemma sendMessageResume_sound (r : Settled) (now : Z) (s : State) :
  ownCallbacks s -> heldIsLive s -> sentIsShown s ->
  ownCallbacks (sendMessageResume r now s)
  /\ heldIsLive (sendMessageResume r now s)
  /\ sentIsShown (sendMessageResume r now s)
  /\ exists l, messages (sendMessageResume r now s) = (messages s ++ l)%list.
Proof.
  intros Hc Hh Hs. unfold sendMessageResume.
  destruct s as [ms inp ld sm st ref tm nh fe aw].
  unfold ownCallbacks, heldIsLive, sentIsShown in *. cbn in *.
  destruct aw as [|aw].
  { split; [|split; [|split]]; auto. exists []. now rewrite app_nil_r. }
  assert (Err : forall m, role m = assistant ->
            Forall (fun t => callback t = appendReply) tm
            /\ (forall h, ref = Some h -> st = true /\ In h (map handle tm))
            /\ fe = map content (filter isUser (ms ++ [m]))
            /\ exists l, (ms ++ [m] = ms ++ l)%list).
  { intros m Hm. split; [|split; [|split]]; auto.
    - now rewrite filter_user_app.
    - eexists; reflexivity. }
  destruct r as [|[] [| |[reply|]]]; cbn; try (apply Err; reflexivity).
  - split; [|split; [|split]].
    + apply Forall_app. split; [exact Hc|]. now constructor.
    + intros h Hr. injection Hr as <-. split; [reflexivity|].
      rewrite map_app. apply in_or_app. right. now left.
    + exact Hs.
    + exists []. now rewrite app_nil_r.
  - split; [|split; [|split]].
    + exact Hc.
    + intros h Hr. destruct (Hh h Hr) as [_ Hl]. now split.
    + now rewrite filter_user_app.
    + eexists; reflexivity.
Qed.

Lemma step_sound (s : State) (e : Event) :
  sound s ->
  sound (step s e) /\ exists l, messages (step s e) = (messages s ++ l)%list.
Proof.
  intros (Ho & Hc & Hh & Hs).
  assert (Keep : sound s /\ exists l, messages s = (messages s ++ l)%list).
  { split; [exact (conj Ho (conj Hc (conj Hh Hs)))|].
    exists []. now rewrite app_nil_r. }
  pose proof (step_oneRequest s e Ho) as Ho'.
  unfold sound.
  destruct e as [v|now|now|now|r now|h now]; cbn [step] in *.
  - destruct (isLoading s); [exact Keep|].
    split; [exact (conj Ho' (conj Hc (conj Hh Hs)))|].
    exists []. cbn. now rewrite app_nil_r.
  - destruct (isLoading s); [exact Keep|].
    destruct (sendMessage_sound now s Hc Hh Hs) as (A & B & C & D).
    exact (conj (conj Ho' (conj A (conj B C))) D).
  - destruct (isStreaming s); [exact Keep|].
    destruct (sendMessage_sound now s Hc Hh Hs) as (A & B & C & D).
    exact (conj (conj Ho' (conj A (conj B C))) D).
  - destruct (isStreaming s); [|exact Keep].
    destruct (stopStreaming_sound now s Hc Hh Hs) as (A & B & C & D).
    exact (conj (conj Ho' (conj A (conj B C))) D).
  - destruct (sendMessageResume_sound r now s Hc Hh Hs) as (A & B & C & D).
    exact (conj (conj Ho' (conj A (conj B C))) D).
  - destruct (tick_sound h now s Hc Hh Hs) as (A & B & C & D).
    exact (conj (conj Ho' (conj A (conj B C))) D).
Qed.

Lemma initial_sound : sound initial.
Proof.
  repeat split; try reflexivity; try constructor; discriminate.
Qed.

Lemma run_sound (es : list Event) (s : State) :
  sound s ->
  sound (run s es) /\ exists l, messages (run s es) = (messages s ++ l)%list.
Proof.
  revert s. induction es as [|e es IH]; intros s H.
  - split; [exact H|]. exists []. simpl. now rewrite app_nil_r.
  - destruct (step_sound s e H) as [H1 [l1 E1]].
    destruct (IH (step s e) H1) as [H2 [l2 E2]].
    change (run s (e :: es)) with (run (step s e) es).
    split; [exact H2|]. exists (l1 ++ l2)%list.
    rewrite E2, E1. now rewrite app_assoc.
Qed.

End SessionMore.

(** ** Further properties of the session *)

Module SessionExtras.
Import Str StrFacts StrMore Session SessionFacts SessionMore.
Local Open Scope Z_scope.

(** X13: for every reply, a reveal that starts when no interval is live
    shows the whole reply, exactly as received, after as many firings as the
    reply has words between single blanks, and has appended nothing by
    then; the next firing appends one assistant message with the reply,
    clears the interval and resets the shown text, the reference and the
    streaming flag, and after it no firing changes the state. *)
Theorem reveal_completes (text : string) (s : State) (t0 now now' : Z) :
  timers s = [] -> awaiting s <> 0%nat ->
  let h := nextHandle s in
  let n := List.length (split " " text) in
  let shown := Nat.iter n (tick h now) (started text t0 s) in
  let done := tick h now' shown in
  (streamingMessage shown = text /\ isStreaming shown = true
   /\ messages shown = messages s)
  /\ (messages done
      = (messages s ++ [mkMessage (now' + 1) text assistant now'])%list
      /\ isStreaming done = false /\ streamingMessage done = ""
      /\ timers done = [] /\ streamIntervalRef done = None)
  /\ (forall h' t, tick h' t done = done).
Proof.
  intros Ht Ha h n shown done.
  assert (E : shown
              = mkState (messages s) (input s) false text true (Some h)
                  [mkInterval h text (split " " text) n appendReply]
                  (S h) (fetched s) (pred (awaiting s))).
  { subst shown h n. rewrite (revealed_state text t0 now s _ Ht Ha (le_n _)).
    now rewrite firstn_all, join_split. }
  assert (D : done
              = mkState (appendReply text now' (messages s)) (input s) false ""
                  false None [] (S h) (fetched s) (pred (awaiting s))).
  { subst done. rewrite E. apply tick_ends. subst n. lia. }
  rewrite E, D. repeat split.
Qed.

(** A reply with two blanks in a row and a line feed. *)
Lemma reveal_completes_witness :
  timers asked = [] /\ awaiting asked <> 0%nat
  /\ streamingMessage
       (Nat.iter (List.length (split " " ("a  b" ++ nl ++ "c d")))
                 (tick (nextHandle asked) 3)
                 (started ("a  b" ++ nl ++ "c d") 2 asked))
     = "a  b" ++ nl ++ "c d".
Proof.
  assert (T : timers asked = []) by (vm_compute; reflexivity).
  assert (A : awaiting asked <> 0%nat) by (vm_compute; discriminate).
  split; [exact T|]. split; [exact A|].
  pose proof (reveal_completes ("a  b" ++ nl ++ "c d") asked 2 3 4 T A) as H.
  cbv zeta in H. exact (proj1 (proj1 H)).
Defined.

(** X14: during a reveal that started when no interval was live, the text
    shown after [k] firings is the first [k] words joined by single blanks,
    it is a prefix of the reply, and no message has been appended. *)
Theorem reveal_shows_prefix (text : string) (s : State) (t0 now : Z) (k : nat) :
  timers s = [] -> awaiting s <> 0%nat ->
  (k <= List.length (split " " text))%nat ->
  let sk := Nat.iter k (tick (nextHandle s) now) (started text t0 s) in
  streamingMessage sk = join " " (firstn k (split " " text))
  /\ String.prefix (streamingMessage sk) text = true
  /\ messages sk = messages s
  /\ isStreaming sk = true.
Proof.
  intros Ht Ha Hk sk. subst sk.
  rewrite (revealed_state text t0 now s k Ht Ha Hk). cbn.
  repeat split.
  pose proof (join_firstn_prefix " " (split " " text) k) as P.
  now rewrite join_split in P.
Qed.

(** Two of four words. *)
Lemma reveal_shows_prefix_witness :
  timers asked = [] /\ awaiting asked <> 0%nat
  /\ (2 <= List.length (split " " "to be or not"))%nat
  /\ streamingMessage
       (Nat.iter 2 (tick (nextHandle asked) 3) (started "to be or not" 2 asked))
     = join " " (firstn 2 (split " " "to be or not")).
Proof.
  assert (T : timers asked = []) by (vm_compute; reflexivity).
  assert (A : awaiting asked <> 0%nat) by (vm_compute; discriminate).
  assert (K : (2 <= List.length (split " " "to be or not"))%nat)
    by (vm_compute; lia).
  split; [exact T|]. split; [exact A|]. split; [exact K|].
  pose proof (reveal_shows_prefix "to be or not" asked 2 3 2 T A K) as H.
  cbv zeta in H. exact (proj1 H).
Defined.

(** X15: Stop after [k] firings of a reveal that started when no interval
    was live leaves no live interval, so that no firing changes the state
    any more, and resets the reference, the streaming flag and the shown
    text; it appends one assistant message holding the first [k] words
    joined by single blanks when that text is not empty, and nothing when
    it is empty. *)
Theorem cancel_after_firings (text : string) (s : State) (t0 now now' : Z)
    (k : nat) :
  timers s = [] -> awaiting s <> 0%nat ->
  (k <= List.length (split " " text))%nat ->
  let shown := join " " (firstn k (split " " text)) in
  let c := stopStreaming now'
             (Nat.iter k (tick (nextHandle s) now) (started text t0 s)) in
  (timers c = [] /\ streamIntervalRef c = None /\ isStreaming c = false
   /\ streamingMessage c = "")
  /\ (forall h' t, tick h' t c = c)
  /\ (shown <> "" ->
      messages c = (messages s ++ [mkMessage (now' + 1) shown assistant now'])%list)
  /\ (shown = "" -> messages c = messages s).
Proof.
  intros Ht Ha Hk shown c. subst c.
  rewrite (revealed_state text t0 now s k Ht Ha Hk). fold shown.
  unfold stopStreaming. cbn -[Z.add]. rewrite Nat.eqb_refl. cbn -[Z.add].
  destruct shown as [|a r]; cbn -[Z.add]; repeat split;
    try contradiction; try discriminate.
Qed.

(** Stop after one word of three. *)
Lemma cancel_after_firings_witness :
  timers asked = [] /\ awaiting asked <> 0%nat
  /\ (1 <= List.length (split " " "one two three"))%nat
  /\ join " " (firstn 1 (split " " "one two three")) <> ""
  /\ messages
       (stopStreaming 9
          (Nat.iter 1 (tick (nextHandle asked) 3) (started "one two three" 2 asked)))
     = (messages asked
        ++ [mkMessage (9 + 1) (join " " (firstn 1 (split " " "one two three")))
                      assistant 9])%list.
Proof.
  assert (T : timers asked = []) by (vm_compute; reflexivity).
  assert (A : awaiting asked <> 0%nat) by (vm_compute; discriminate).
  assert (K : (1 <= List.length (split " " "one two three"))%nat)
    by (vm_compute; lia).
  assert (N : join " " (firstn 1 (split " " "one two three")) <> "")
    by (vm_compute; discriminate).
  split; [exact T|]. split; [exact A|]. split; [exact K|]. split; [exact N|].
  pose proof (cancel_after_firings "one two three" asked 2 3 9 1 T A K) as H.
  cbv zeta in H. destruct H as (_ & _ & M & _). exact (M N).
Defined.

(** X16: whatever is typed, sent, answered, fired or stopped from the start
    of a session, at most one request is under way, and one is under way
    exactly while [isLoading] is set. *)
Theorem one_request_under_way (es : list Event) :
  awaiting (run initial es)
  = if isLoading (run initial es) then 1%nat else 0%nat.
Proof. exact (proj1 (proj1 (run_sound es initial initial_sound))). Qed.

(** X17: in every state of a session the requests sent are the user
    messages of the list, one for one and in order: no user message is shown
    without its request and no request goes out without its message. *)
Theorem sent_is_shown (es : list Event) :
  fetched (run initial es)
  = map content (filter isUser (messages (run initial es))).
Proof.
  destruct (run_sound es initial initial_sound) as [(_ & _ & _ & H) _].
  exact H.
Qed.

(** X18: the message list only grows at its end: whatever happens after a
    state of a session, the messages of that state stay, unchanged and in
    place, at the start of the list. *)
Theorem history_append_only (es1 es2 : list Event) :
  exists l,
    messages (run initial (es1 ++ es2))
    = (messages (run initial es1) ++ l)%list.
Proof.
  unfold run. rewrite fold_left_app.
  destruct (run_sound es1 initial initial_sound) as [H _].
  exact (proj2 (run_sound es2 _ H)).
Qed.

(** X19: in every state of a session, a handle kept in the reference is
    the handle of a live interval, and the streaming flag is set. *)
Theorem held_reveal_is_live (es : list Event) (h : nat) :
  streamIntervalRef (run initial es) = Some h ->
  isStreaming (run initial es) = true
  /\ In h (map handle (timers (run initial es))).
Proof.
  destruct (run_sound es initial initial_sound) as [(_ & _ & H & _) _].
  exact (H h).
Qed.

(** A reveal that has just started. *)
Lemma held_reveal_is_live_witness :
  streamIntervalRef (run initial (oneReveal "a b")) = Some 1%nat
  /\ isStreaming (run initial (oneReveal "a b")) = true.
Proof.
  assert (R : streamIntervalRef (run initial (oneReveal "a b")) = Some 1%nat)
    by (vm_compute; reflexivity).
  split; [exact R|].
  exact (proj1 (held_reveal_is_live (oneReveal "a b") 1%nat R)).
Defined.

(** X20: in every state of a session in which the streaming flag is clear,
    [stopStreaming] changes nothing. *)
Theorem stop_needs_streaming (es : list Event) (now : Z) :
  isStreaming (run initial es) = false ->
  stopStreaming now (run initial es) = run initial es.
Proof.
  intros H. unfold stopStreaming.
  destruct (streamIntervalRef (run initial es)) as [h|] eqn:R; [|reflexivity].
  destruct (run_sound es initial initial_sound) as [(_ & _ & L & _) _].
  destruct (L h R) as [St _]. congruence.
Qed.

(** After a reveal has ended. *)
Lemma stop_needs_streaming_witness :
  isStreaming (run initial (oneReveal "a" ++ [Tick 1 3; Tick 1 4])) = false
  /\ stopStreaming 5 (run initial (oneReveal "a" ++ [Tick 1 3; Tick 1 4]))
     = run initial (oneReveal "a" ++ [Tick 1 3; Tick 1 4]).
Proof.
  assert (S : isStreaming (run initial (oneReveal "a" ++ [Tick 1 3; Tick 1 4]))
              = false) by (vm_compute; reflexivity).
  split; [exact S|].
  exact (stop_needs_streaming _ 5 S).
Defined.

(** X21: when the request fails with a network error, a status that is not
    a success, a body that is not JSON or a body that is [null], exactly
    one assistant message with the fixed error text is appended at the end
    of the list, [isLoading] is cleared, and the streaming flag and the
    live intervals are left as they were. *)
Theorem failure_appends_error (r : Settled) (now : Z) (s : State) :
  throwsEarly r = true -> awaiting s <> 0%nat ->
  let s' := sendMessageResume r now s in
  messages s' = (messages s ++ [mkMessage (now + 1) errorText assistant now])%list
  /\ isLoading s' = false
  /\ isStreaming s' = isStreaming s
  /\ timers s' = timers s
  /\ awaiting s' = pred (awaiting s).
Proof.
  intros Hr Ha.
  destruct (early_failure_recovered r now s Hr Ha) as (M & L & St & T).
  cbv zeta. repeat split; try assumption.
  unfold sendMessageResume. destruct (awaiting s) as [|n]; [contradiction|].
  destruct r as [|[] [| |reply]]; try discriminate Hr; reflexivity.
Qed.

(** A status 500 for the first message of a session. *)
Lemma failure_appends_error_witness :
  throwsEarly (Response false Unparsable) = true /\ awaiting asked <> 0%nat
  /\ messages (sendMessageResume (Response false Unparsable) 2 asked)
     = (messages asked ++ [mkMessage (2 + 1) errorText assistant 2])%list.
Proof.
  assert (A : awaiting asked <> 0%nat) by (vm_compute; discriminate).
  split; [reflexivity|]. split; [exact A|].
  exact (proj1 (failure_appends_error (Response false Unparsable) 2 asked
                  eq_refl A)).
Defined.

(** X22: while the streaming flag is set and no request is under way, the
    Send button does nothing, but Enter without Shift in the text field
    sends what is typed: the trimmed input goes out as a request.  Any
    other key, and Enter with Shift, change nothing. *)
Theorem enter_sends_while_streaming (s : State) (now : Z) :
  isStreaming s = true -> isLoading s = false -> trim (input s) <> "" ->
  step s (ClickSend now) = s
  /\ handleKeyPress "Enter" false now s = step s (PressEnter now)
  /\ fetched (handleKeyPress "Enter" false now s)
     = (fetched s ++ [trim (input s)])%list
  /\ isLoading (handleKeyPress "Enter" false now s) = true
  /\ (forall key shiftKey,
        key <> "Enter" \/ shiftKey = true ->
        handleKeyPress key shiftKey now s = s).
Proof.
  intros Hst Hl Hne.
  assert (E : handleKeyPress "Enter" false now s = sendMessage now s)
    by reflexivity.
  rewrite E. cbn [step]. rewrite Hst, Hl.
  unfold sendMessage. rewrite Hl.
  destruct (trim (input s)) as [|a t] eqn:T; [contradiction|].
  cbn. repeat split.
  intros key shiftKey [Hk|Hs]; unfold handleKeyPress.
  - apply String.eqb_neq in Hk. now rewrite Hk.
  - rewrite Hs. now rewrite andb_false_r.
Qed.

(** A second message typed while the first answer is revealed. *)
Lemma enter_sends_while_streaming_witness :
  let s := step (run initial (oneReveal "a b c")) (Typed " yo ") in
  isStreaming s = true /\ isLoading s = false /\ trim (input s) <> ""
  /\ step s (ClickSend 3) = s
  /\ fetched (handleKeyPress "Enter" false 3 s)
     = (fetched s ++ [trim (input s)])%list.
Proof.
  cbv zeta.
  assert (St : isStreaming (step (run initial (oneReveal "a b c")) (Typed " yo "))
               = true) by (vm_compute; reflexivity).
  assert (L : isLoading (step (run initial (oneReveal "a b c")) (Typed " yo "))
              = false) by (vm_compute; reflexivity).
  assert (N : trim (input (step (run initial (oneReveal "a b c")) (Typed " yo ")))
              <> "") by (vm_compute; discriminate).
  split; [exact St|]. split; [exact L|]. split; [exact N|].
  pose proof (enter_sends_while_streaming _ 3 St L N) as H.
  split; [exact (proj1 H) | exact (proj1 (proj2 (proj2 H)))].
Defined.

End SessionExtras.
